(** * review_optimize.py: analysis and cleaning of API proxy bundles

    A shallow embedding of [src/review_optimize.py] (class [ProxyBundle])
    and the properties of its unattached-policy detector, its sequential
    JavaScript step detector and its cascading cleaner.

    Modelling choices, all of them visible in the definitions below:
    - a Python [str] is a [string] whose characters are the code points
      below 256; comparison is by code point, as in Python;
    - an XML element is a record with the fields of
      [xml.etree.ElementTree.Element]; a file is either the bytes of a
      document the parser accepts, represented by the tree it parses to, or
      bytes for which [ET.parse] raises [ParseError];
    - a directory is the list of its entries in the order the operating
      system enumerates them, which is the order of [glob];
    - exceptions are values of [exn], propagated by the [result] monad. *)

From Stdlib Require Import Ascii NArith.
From stdpp Require Import base option list strings gmap sorting.

(** ** Strings: the [str] methods the program uses *)

Module Str.

(** [str.isspace] on one character, for the code points below 256. *)
Definition isspace (c : ascii) : bool :=
  let n := N_of_ascii c in
  ((9 <=? n) && (n <=? 13) || (28 <=? n) && (n <=? 32)
   || (n =? 133) || (n =? 160))%N.

Fixpoint lstrip (s : string) : string :=
  match s with
  | String c s' => if isspace c then lstrip s' else s
  | EmptyString => EmptyString
  end.

(** [s.strip()] *)
Definition strip (s : string) : string :=
  String.rev (lstrip (String.rev (lstrip s))).

(** [str.lower] on one character: A-Z and the upper-case letters of the
    Latin-1 supplement (all of 0xC0-0xDE but the multiplication sign). *)
Definition lower_char (c : ascii) : ascii :=
  let n := N_of_ascii c in
  if ((65 <=? n) && (n <=? 90)
      || (192 <=? n) && (n <=? 222) && negb (n =? 215))%N
  then ascii_of_N (n + 32) else c.

(** [s.lower()] *)
Fixpoint lower (s : string) : string :=
  match s with
  | String c s' => String (lower_char c) (lower s')
  | EmptyString => EmptyString
  end.

(** [s.startswith(p)] *)
Fixpoint startswith (p s : string) : bool :=
  match p, s with
  | EmptyString, _ => true
  | String a p', String b s' => bool_decide (a = b) && startswith p' s'
  | String _ _, EmptyString => false
  end.

(** [s.endswith(p)] *)
Definition endswith (p s : string) : bool :=
  startswith (String.rev p) (String.rev s).

(** ['.' in s] *)
Fixpoint has_dot (s : string) : bool :=
  match s with
  | String c s' => bool_decide (c = "."%char) || has_dot s'
  | EmptyString => false
  end.

(** [s.rfind('.')], [None] for Python's -1. *)
Fixpoint rfind_dot (s : string) : option nat :=
  match s with
  | EmptyString => None
  | String c s' =>
      match rfind_dot s' with
      | Some i => Some (S i)
      | None => if bool_decide (c = "."%char) then Some 0 else None
      end
  end.

(** [s[:n]] *)
Fixpoint take (n : nat) (s : string) : string :=
  match n, s with
  | S n', String c s' => String c (take n' s')
  | _, _ => EmptyString
  end.

(** The loop of [s.split(sep)] for a non-empty [sep]: [skip] counts the
    characters of a separator still to be dropped, [cur] is the part
    being read, reversed. *)
Fixpoint split_go (sep : string) (skip : nat) (cur : string) (s : string)
  : list string :=
  match s with
  | EmptyString => [String.rev cur]
  | String c s' =>
      match skip with
      | S k => split_go sep k cur s'
      | O =>
          if startswith sep s
          then String.rev cur :: split_go sep (String.length sep - 1) "" s'
          else split_go sep 0 (String c cur) s'
      end
  end.

(** [s.split(sep)] *)
Definition split (sep s : string) : list string := split_go sep 0 "" s.

End Str.

(** [sorted] on strings: Python compares [str] by code point, and equal
    strings are indistinguishable, so any sort gives the list [sorted]
    gives. *)
Definition sorted (l : list string) : list string := merge_sort String.le l.

(** ** Exceptions *)

(** The exception classes the program can meet: [ET.ParseError], the
    [OSError] family ([IsADirectoryError], [FileNotFoundError]) and the
    [ValueError] of a tuple unpacking of the wrong length. *)
Inductive exn := ParseError | OSError | ValueError.

Inductive result (A : Type) : Type :=
  | Ok (a : A)
  | Raise (e : exn).
Arguments Ok {A} a.
Arguments Raise {A} e.

#[global] Instance exn_eq_dec : EqDecision exn.
Proof. solve_decision. Defined.

#[global] Instance result_ret : MRet result := @Ok.
#[global] Instance result_bind : MBind result := λ A B f m,
  match m with Ok a => f a | Raise e => Raise e end.

(** A [for] loop whose body may raise: the state is threaded through the
    iterations and the first exception ends the loop. *)
Fixpoint for_each {A S : Type} (body : S → A → result S) (l : list A) (s : S)
  : result S :=
  match l with
  | [] => Ok s
  | x :: l' => s' ← body s x; for_each body l' s'
  end.

(** ** XML elements ([xml.etree.ElementTree.Element]) *)

#[warnings="-register-all"] Inductive Element : Type :=
  mkElement {
    tag : string;
    attrib : list (string * string);
    text : option string;
    tail : option string;
    children : list Element
  }.

Module ET.

(** [ET.SubElement(parent, tag)] creates an element with no attribute, no
    text and no child; [new] is that element. *)
Definition new (t : string) : Element := mkElement t [] None None [].

(** [elem.find(t)]: the first direct child with tag [t]. *)
Definition find (t : string) (e : Element) : option Element :=
  List.find (λ c, bool_decide (tag c = t)) (children e).

(** [elem.findall(t)]: the direct children with tag [t], in order. *)
Definition findall (t : string) (e : Element) : list Element :=
  List.filter (λ c, bool_decide (tag c = t)) (children e).

(** [elem.get(k)] *)
Definition get (k : string) (e : Element) : option string :=
  snd <$> List.find (λ kv, bool_decide (kv.1 = k)) (attrib e).

(** [elem.iter()]: the element and all its descendants, in document
    order. *)
Fixpoint iter (e : Element) : list Element :=
  match e with
  | mkElement _ _ _ _ cs => e :: flat_map iter cs
  end.

(** The proper descendants of an element, in document order. *)
Definition descendants (e : Element) : list Element :=
  flat_map iter (children e).

(** [elem.findall('.//t')]: the proper descendants with tag [t]. *)
Definition findall_desc (t : string) (e : Element) : list Element :=
  List.filter (λ c, bool_decide (tag c = t)) (descendants e).

End ET.


(** ** The file system *)

(** The bytes of a file, seen through [ET.parse]: a document, given by the
    root element the parser returns, or bytes the parser rejects.
    [tree.write] stores the serialisation of a tree, which parses back to
    that tree. *)
Inductive fcontent : Type :=
  | Doc (root : Element)
  | Raw (data : string).

#[warnings="-register-all"] Inductive fsnode : Type :=
  | File (c : fcontent)
  | Dir (entries : list (string * fsnode)).

Module Path.

(** The entries of a directory; a path that is missing or is a regular
    file has none. *)
Definition entries (d : option fsnode) : list (string * fsnode) :=
  match d with
  | Some (Dir es) => es
  | _ => []
  end.

(** [d / name], when it exists. *)
Definition child (name : string) (d : fsnode) : option fsnode :=
  snd <$> List.find (λ e, bool_decide (e.1 = name)) (entries (Some d)).

(** The node at a path given by its components, when it exists. *)
Fixpoint lookup (p : list string) (n : fsnode) : option fsnode :=
  match p with
  | [] => Some n
  | c :: p' => child c n ≫= lookup p'
  end.

(** The patterns of the program: ['*.xml'] and ['*.*'] (matching is
    case-sensitive and does not set dot files apart). *)
Definition match_xml (name : string) : bool := Str.endswith ".xml" name.
Definition match_dotted (name : string) : bool := Str.has_dot name.

(** [d.glob(pattern)]: the matching entries of [d], files and directories
    alike, in the order of enumeration. *)
Definition glob (pat : string → bool) (d : option fsnode)
  : list (string * fsnode) :=
  List.filter (λ e, pat e.1) (entries d).

(** [p.stem] from the last component of [p] (pathlib up to Python 3.12). *)
Definition stem (name : string) : string :=
  match Str.rfind_dot name with
  | Some i =>
      if ((0 <? i) && (i <? String.length name - 1))%nat then Str.take i name
      else name
  | None => name
  end.

(** The tree without the entry at path [p]. *)
Fixpoint remove (p : list string) (n : fsnode) : fsnode :=
  match p, n with
  | [c], Dir es => Dir (List.filter (λ e, negb (bool_decide (e.1 = c))) es)
  | c :: p', Dir es =>
      Dir (map (λ e, if bool_decide (e.1 = c) then (e.1, remove p' e.2) else e)
             es)
  | _, _ => n
  end.

(** The components of a path segment as pathlib keeps them: empty
    components and single dots are dropped, [..] stays. *)
Definition parts (s : string) : list string :=
  List.filter (λ c, negb (bool_decide (c = "") || bool_decide (c = ".")))
    (Str.split "/" s).

(** The path the operating system reaches from the root of the tree
    [root]: [stack] is the directory reached so far, [..] steps to its
    parent, and every component but the last has to name a directory.
    [None] when nothing is there. A path that climbs above [root] leaves
    the modelled tree, and is taken to reach nothing. *)
Fixpoint resolve (root : fsnode) (stack todo : list string)
  : option (list string) :=
  match todo with
  | [] => match lookup stack root with Some _ => Some stack | None => None end
  | c :: rest =>
      match lookup stack root with
      | Some (Dir _) =>
          if bool_decide (c = "..") then
            match stack with
            | [] => None
            | _ => resolve root (removelast stack) rest
            end
          else resolve root (stack ++ [c]) rest
      | _ => None
      end
  end.

End Path.

Module ElementTree.

(** [ET.parse(path).getroot()] on an existing path. *)
Definition parse (n : fsnode) : result Element :=
  match n with
  | File (Doc root) => Ok root
  | File (Raw _) => Raise ParseError
  | Dir _ => Raise OSError
  end.

End ElementTree.

(** ** class ProxyBundle *)

Record ProxyBundle : Type := {
  name : string;
  source_dir : fsnode
}.

Definition policies_dir (self : ProxyBundle) : option fsnode :=
  Path.child "policies" (source_dir self).
Definition proxies_endpoint_dir (self : ProxyBundle) : option fsnode :=
  Path.child "proxies" (source_dir self).
Definition targets_endpoint_dir (self : ProxyBundle) : option fsnode :=
  Path.child "targets" (source_dir self).

(** [ProxyBundle.__init__] *)
Definition ProxyBundle_init (name : string) (source_dir : fsnode)
  : result ProxyBundle :=
  match Path.child "policies" source_dir with
  | Some (Dir _) => Ok {| name := name; source_dir := source_dir |}
  | _ => Raise OSError
  end.

(** The four cached properties are computed from [source_dir], which the
    program never writes to; each is modelled by the function that fills
    the cache. *)

Definition all_policies (self : ProxyBundle) : gset string :=
  list_to_set (map (λ p, Path.stem p.1)
                 (Path.glob Path.match_xml (policies_dir self))).

(** [name is not None and name.text], then [name.text]: the text of the
    first [Name] child of a step when it is there and not empty. *)
Definition step_name_text (step : Element) : option string :=
  match ET.find "Name" step with
  | Some nm =>
      match text nm with
      | Some t => if bool_decide (t = "") then None else Some t
      | None => None
      end
  | None => None
  end.

(** The body of the loop over the steps of one endpoint document. *)
Definition add_step_name (referenced : gset string) (step : Element)
  : gset string :=
  match step_name_text step with
  | Some t => {[ Str.strip t ]} ∪ referenced
  | None => referenced
  end.

(** The body of the loop over the files of one endpoint directory. *)
Definition scan_endpoint_file (referenced : gset string)
  (xml_file : string * fsnode) : result (gset string) :=
  match ElementTree.parse xml_file.2 with
  | Ok root => Ok (foldl add_step_name referenced (ET.findall_desc "Step" root))
  | Raise ParseError => Ok referenced
  | Raise e => Raise e
  end.

Definition _get_referenced_policy_names (self : ProxyBundle)
  : result (gset string) :=
  for_each
    (λ referenced ep_dir,
       match ep_dir with
       | None => Ok referenced
       | Some _ =>
           for_each scan_endpoint_file (Path.glob Path.match_xml ep_dir)
             referenced
       end)
    [proxies_endpoint_dir self; targets_endpoint_dir self] ∅.

Definition referenced_policies (self : ProxyBundle) : result (gset string) :=
  _get_referenced_policy_names self.

Definition unattached_policies (self : ProxyBundle) : result (list string) :=
  referenced ← referenced_policies self;
  Ok (sorted (elements (all_policies self ∖ referenced))).

(** The body of the loop over the unit files. *)
Definition scan_policy_file (js_names : gset string)
  (policy_file : string * fsnode) : result (gset string) :=
  match ElementTree.parse policy_file.2 with
  | Ok root =>
      if bool_decide (Str.lower (tag root) = "javascript")
      then Ok ({[ Path.stem policy_file.1 ]} ∪ js_names)
      else Ok js_names
  | Raise ParseError => Ok js_names
  | Raise e => Raise e
  end.

Definition _get_javascript_policy_names (self : ProxyBundle)
  : result (gset string) :=
  for_each scan_policy_file (Path.glob Path.match_xml (policies_dir self)) ∅.

Definition javascript_policies (self : ProxyBundle) : result (gset string) :=
  _get_javascript_policy_names self.

(** *** find_sequential_js_steps *)

(** One reported sequence: the keys of the dictionary the program builds. *)
Record Sequence : Type := {
  file : string;
  location : string;
  sequence : list string
}.

(** [is_valid] of the inner loop. *)
Definition is_valid (js_names : gset string) (step : Element) : bool :=
  match step_name_text step, ET.find "Condition" step with
  | Some t, None => bool_decide (Str.strip t ∈ js_names)
  | _, _ => false
  end.

(** [name.text.strip()] of a step that passed [is_valid]. *)
Definition stripped_name (step : Element) : string :=
  match step_name_text step with
  | Some t => Str.strip t
  | None => ""
  end.

(** [if len(seq) > 1: sequences.append(...)] *)
Definition flush (fname loc_path : string) (sequences : list Sequence)
  (seq : list string) : list Sequence :=
  if (1 <? length seq)%nat
  then sequences ++ [{| file := fname; location := loc_path; sequence := seq |}]
  else sequences.

(** The body of the loop over the steps of a path; the state is the pair
    of [sequences] and [seq]. *)
Definition scan_step (js_names : gset string) (fname loc_path : string)
  (st : list Sequence * list string) (step : Element)
  : list Sequence * list string :=
  if is_valid js_names step then (st.1, st.2 ++ [stripped_name step])
  else (flush fname loc_path st.1 st.2, []).

(** The body of the loop over [Request] and [Response]. *)
Definition scan_path (js_names : gset string) (fname loc : string)
  (sequences : list Sequence) (path_element : option Element)
  : list Sequence :=
  match path_element with
  | None => sequences
  | Some pe =>
      let loc_path := loc +:+ "/" +:+ tag pe in
      let st := foldl (scan_step js_names fname loc_path) (sequences, [])
                  (ET.findall "Step" pe) in
      flush fname loc_path st.1 st.2
  end.

(** The location label of a container. *)
Definition container_loc (container : Element) : string :=
  match ET.get "name" container with
  | Some n =>
      if bool_decide (tag container = "Flow") && negb (bool_decide (n = ""))
      then "Flow '" +:+ n +:+ "'"
      else tag container
  | None => tag container
  end.

(** The body of the loop over the containers of a document. *)
Definition scan_container (js_names : gset string) (fname : string)
  (sequences : list Sequence) (container : Element) : list Sequence :=
  foldl (scan_path js_names fname (container_loc container)) sequences
    [ET.find "Request" container; ET.find "Response" container].

(** The body of the loop over the endpoint files. *)
Definition scan_sequences_file (js_names : gset string)
  (sequences : list Sequence) (endpoint_file : string * fsnode)
  : result (list Sequence) :=
  match ElementTree.parse endpoint_file.2 with
  | Ok root =>
      let containers :=
        ET.findall_desc "PreFlow" root ++ ET.findall_desc "PostFlow" root
        ++ ET.findall_desc "Flow" root in
      Ok (foldl (scan_container js_names endpoint_file.1) sequences containers)
  | Raise ParseError => Ok sequences
  | Raise e => Raise e
  end.

Definition find_sequential_js_steps (self : ProxyBundle)
  : result (list Sequence) :=
  js_names ← javascript_policies self;
  for_each (scan_sequences_file js_names)
    (Path.glob Path.match_xml (proxies_endpoint_dir self)
     ++ Path.glob Path.match_xml (targets_endpoint_dir self)) [].

(** *** clean_and_save *)

Definition _get_resource_url_from_policy_file (tree : fsnode)
  (policy_file : list string) : result (option string) :=
  match Path.lookup policy_file tree with
  | None => Ok None
  | Some n =>
      match ElementTree.parse n with
      | Ok root =>
          if bool_decide (Str.lower (tag root) = "javascript")
             || bool_decide (Str.lower (tag root) = "javacallout")
          then match ET.find "ResourceURL" root with
               | Some elem => Ok (text elem)
               | None => Ok None
               end
          else Ok None
      | Raise ParseError => Ok None
      | Raise e => Raise e
      end
  end.

(** [if p.exists(): p.unlink()] for a path [p] already resolved: a regular
    file is removed, a directory makes [unlink] raise. *)
Definition unlink_if_exists (p : list string) (tree : fsnode) : result fsnode :=
  match Path.lookup p tree with
  | None => Ok tree
  | Some (File _) => Ok (Path.remove p tree)
  | Some (Dir _) => Raise OSError
  end.

(** [output_proxy_dir / 'resources' / scheme / filename], as components
    below [output_proxy_dir]. A segment that starts with a slash makes the
    path absolute: it then lies outside the copy, and is taken to reach
    nothing ([None]). *)
Definition res_file (scheme filename : string) : option (list string) :=
  if Str.startswith "/" scheme || Str.startswith "/" filename then None
  else Some ("resources" :: Path.parts scheme ++ Path.parts filename).

(** The body of the loop over the unattached policies; the state is the
    tree below [output_proxy_dir]. *)
Definition remove_policy (out : fsnode) (policy_name : string) : result fsnode :=
  let policy_file := ["policies"; policy_name +:+ ".xml"] in
  resource_url ← _get_resource_url_from_policy_file out policy_file;
  out ← unlink_if_exists policy_file out;
  match resource_url with
  | None => Ok out
  | Some url =>
      if bool_decide (url = "") then Ok out
      else match Str.split "://" url with
           | [scheme; filename] =>
               match res_file scheme filename ≫= Path.resolve out [] with
               | Some p => unlink_if_exists p out
               | None => Ok out
               end
           | _ => Raise ValueError
           end
  end.

(** [name.text and name.text.strip() not in remaining] for a step. *)
Definition is_orphan (remaining : gset string) (step : Element) : bool :=
  match step_name_text step with
  | Some t => bool_decide (Str.strip t ∉ remaining)
  | None => false
  end.

(** [parent.remove(step)] is called on a child of [parent] when it is a
    [Step] and [is_orphan]. *)
Definition removed (remaining : gset string) (c : Element) : bool :=
  bool_decide (tag c = "Step") && is_orphan remaining c.

(** The tree after the loop over [findall('.//Step/..')]. Every element
    with a [Step] child is in that list once, and the loop takes the
    orphaned [Step] children out of each; no other element has a child
    taken out, and nothing else of an element is written. The elements are
    visited as Python objects, so a parent that an earlier removal has
    detached is still processed. The result is therefore the tree in which
    every element, at every depth, has lost its orphaned [Step]
    children. *)
Fixpoint strip_orphans (remaining : gset string) (e : Element) : Element :=
  match e with
  | mkElement tg at_ tx tl cs =>
      mkElement tg at_ tx tl
        (flat_map (λ c, if removed remaining c then []
                        else [strip_orphans remaining c]) cs)
  end.

(** The flag [changed]: some [parent.remove(step)] was executed. Each
    [Step] below the root is examined once, as a child of its parent. *)
Definition changed (remaining : gset string) (root : Element) : bool :=
  existsb (is_orphan remaining) (ET.findall_desc "Step" root).

(** The body of the loop over [rglob('*.xml')], on the content of one
    regular file: the file is rewritten when [changed]; a file that does
    not parse is left alone. *)
Definition strip_file (remaining : gset string) (c : fcontent) : fcontent :=
  match c with
  | Doc root =>
      if changed remaining root then Doc (strip_orphans remaining root) else c
  | Raw _ => c
  end.

(** The loop over [rglob('*.xml')]: every entry at every depth whose name
    matches; a matching directory makes [ET.parse] raise, which the loop
    ignores, and is descended into like any other. The files are
    independent of one another, so the loop is a map over the tree. *)
Fixpoint strip_tree (remaining : gset string) (n : fsnode) : fsnode :=
  match n with
  | File c => File c
  | Dir es =>
      Dir (map (λ e, match e with
                     | (nm, File c) =>
                         (nm, File (if Path.match_xml nm
                                    then strip_file remaining c else c))
                     | (nm, d) => (nm, strip_tree remaining d)
                     end) es)
  end.

(** What the loop makes of the entry [nm] of a directory. *)
Definition strip_node (remaining : gset string) (nm : string) (n : fsnode)
  : fsnode :=
  match n with
  | File c => File (if Path.match_xml nm then strip_file remaining c else c)
  | Dir _ => strip_tree remaining n
  end.

(** The set [remaining], read from the directory of the cleaned copy. *)
Definition remaining_policies (cleaned : fsnode) : gset string :=
  list_to_set (map (λ p, Path.stem p.1)
                 (Path.glob Path.match_xml (Path.child "policies" cleaned))).

Definition _remove_orphaned_steps (cleaned : fsnode) : fsnode :=
  strip_tree (remaining_policies cleaned) cleaned.

(** *** _sync_manifest *)

(** [for child in list(elem): elem.remove(child)], then one [SubElement]
    with its text per item. *)
Definition set_items (item_tag : string) (items : list string) (elem : Element)
  : Element :=
  mkElement (tag elem) (attrib elem) (text elem) (tail elem)
    (map (λ t, mkElement item_tag [] (Some t) None []) items).

(** The children of the root after the section, which is the first child
    with the section tag, has been given its new items in place. *)
Fixpoint update_first (section_tag item_tag : string) (items : list string)
  (cs : list Element) : list Element :=
  match cs with
  | [] => []
  | c :: cs' =>
      if bool_decide (tag c = section_tag)
      then set_items item_tag items c :: cs'
      else c :: update_first section_tag item_tag items cs'
  end.

Definition _update_manifest_section (root : Element)
  (section_tag item_tag : string) (items : list string) : Element :=
  match ET.find section_tag root with
  | Some _ =>
      mkElement (tag root) (attrib root) (text root) (tail root)
        (update_first section_tag item_tag items (children root))
  | None =>
      mkElement (tag root) (attrib root) (text root) (tail root)
        (children root ++ [set_items item_tag items (ET.new section_tag)])
  end.

(** [[p.stem for p in sorted((cleaned_proxy_dir / 'policies').glob('*.xml'))]]:
    paths of one directory compare by their last component. *)
Definition policy_items (cleaned : fsnode) : list string :=
  map Path.stem
    (sorted (map fst (Path.glob Path.match_xml
                        (Path.child "policies" cleaned)))).

Definition RES_TYPES : list string :=
  ["jsc"; "java"; "py"; "xsl"; "wsdl"; "properties"].

(** The body of the loop over the resource types. *)
Definition resource_items_of (cleaned : fsnode) (res_type : string)
  : list string :=
  match Path.lookup ["resources"; res_type] cleaned with
  | Some res_dir =>
      map (λ r, res_type +:+ "://" +:+ r)
        (sorted (map fst (Path.glob Path.match_dotted (Some res_dir))))
  | None => []
  end.

Definition resource_items (cleaned : fsnode) : list string :=
  flat_map (resource_items_of cleaned) RES_TYPES.

(** The body of the loop over the root-level ['*.xml'] entries, on a root
    that parsed. The two listings are read from directories the loop does
    not write to. *)
Definition sync_root (cleaned : fsnode) (root : Element) : Element :=
  _update_manifest_section
    (_update_manifest_section root "Policies" "Policy" (policy_items cleaned))
    "Resources" "Resource" (resource_items cleaned).

Definition sync_entry (cleaned : fsnode) (e : string * fsnode)
  : string * fsnode :=
  match e with
  | (nm, File (Doc root)) =>
      if Path.match_xml nm then (nm, File (Doc (sync_root cleaned root))) else e
  | _ => e
  end.

Definition _sync_manifest (cleaned : fsnode) : fsnode :=
  match cleaned with
  | Dir es => Dir (map (sync_entry cleaned) es)
  | File _ => cleaned
  end.

(** [clean_and_save]: the copy of the source tree, the loop over the
    unattached policies, the two passes over the copy. The result is the
    tree below the returned [output_proxy_dir]. *)
Definition clean_and_save (self : ProxyBundle) : result fsnode :=
  unattached ← unattached_policies self;
  out ← for_each remove_policy unattached (source_dir self);
  Ok (_sync_manifest (_remove_orphaned_steps out)).

(** ** The vocabulary of the specification *)






(** The invocation target of a step in the words of the specification:
    the text of its name, trimmed, when there is a name and what is left
    of it after trimming is not empty. *)
Definition invocation_target (step : Element) : option string :=
  match ET.find "Name" step with
  | Some nm =>
      match text nm with
      | Some t =>
          if bool_decide (Str.strip t = "") then None else Some (Str.strip t)
      | None => None
      end
  | None => None
  end.





(** The Sequence Detector in the words of the specification. A step
    extends the run when its name is not empty after trimming, the trimmed
    name is a scripting unit and the step has no condition. *)
Definition extends_run (js_names : gset string) (step : Element) : Prop :=
  ∃ target, invocation_target step = Some target
            ∧ target ∈ js_names
            ∧ ET.find "Condition" step = None.

#[global] Instance extends_run_dec js_names step :
  Decision (extends_run js_names step).
Proof.
  unfold extends_run. destruct (invocation_target step) as [t|].
  - destruct (decide (t ∈ js_names ∧ ET.find "Condition" step = None))
      as [H|H].
    + left. exists t. tauto.
    + right. intros (t' & Ht & H1 & H2). inversion Ht; subst. tauto.
  - right. intros (t' & Ht & _). discriminate.
Defined.



(** The record reported for a run. *)
Definition mk_sequence (fname loc_path : string) (r : list string) : Sequence :=
  {| file := fname; location := loc_path; sequence := r |}.

(** The documents of a tree: the roots of the files at any depth whose
    name matches ['*.xml'] and that parse. *)
Fixpoint xml_docs (n : fsnode) : list Element :=
  match n with
  | File _ => []
  | Dir es =>
      flat_map (λ e, match e with
                     | (nm, File (Doc root)) =>
                         if Path.match_xml nm then [root] else []
                     | (nm, File (Raw _)) => []
                     | (nm, d) => xml_docs d
                     end) es
  end.

(** No step among [steps] names a unit outside [remaining]. *)
Definition no_dangling (remaining : gset string) (steps : list Element) : Prop :=
  ∀ step t, step ∈ steps → tag step = "Step" →
    step_name_text step = Some t → Str.strip t ∈ remaining.

(** The texts of the items of a section of a manifest root. *)
Definition section_items (section_tag : string) (root : Element)
  : option (list (option string)) :=
  map text <$> (children <$> ET.find section_tag root).


(** The link of a unit as [clean_and_save] reads it from a tree. *)
Definition resource_link (tree : fsnode) (policy_name : string)
  : result (option string) :=
  _get_resource_url_from_policy_file tree ["policies"; policy_name +:+ ".xml"].

(** A link that is there and does not split into two parts. *)
Definition malformed_link (url : string) : Prop :=
  url ≠ "" ∧ length (Str.split "://" url) ≠ 2.

(** ** Sample bundles *)

Module Sample.

Definition el (t : string) (cs : list Element) : Element :=
  mkElement t [] None None cs.
Definition leaf (t x : string) : Element := mkElement t [] (Some x) None [].

(** A step invoking [n], without and with a condition. *)
Definition step (n : string) : Element := el "Step" [leaf "Name" n].
Definition cond_step (n c : string) : Element :=
  el "Step" [leaf "Name" n; leaf "Condition" c].

(** A JavaScript unit with its resource link, and a unit of another kind. *)
Definition js_policy (url : string) : fsnode :=
  File (Doc (el "Javascript" [leaf "ResourceURL" url])).
Definition other_policy : fsnode := File (Doc (el "AssignMessage" [])).

(** An endpoint document with one [PreFlow] whose request path has the
    given steps. *)
Definition endpoint (steps : list Element) : fsnode :=
  File (Doc (el "ProxyEndpoint" [el "PreFlow" [el "Request" steps]])).

Definition manifest : fsnode :=
  File (Doc (el "APIProxy" [el "Policies" [leaf "Policy" "old"]])).

(** Units U1, U2, U3 (U2 does not parse); only U1 is invoked. *)
Definition p1 : ProxyBundle :=
  {| name := "P1";
     source_dir :=
       Dir [("P1.xml", manifest);
            ("policies", Dir [("U3.xml", js_policy "jsc://u3.js");
                              ("U1.xml", js_policy "jsc://u1.js");
                              ("U2.xml", File (Raw "<Javascript"))]);
            ("proxies", Dir [("default.xml", endpoint [step "U1"]);
                             ("broken.xml", File (Raw "<"))]);
            ("resources", Dir [("jsc", Dir [("u1.js", File (Raw "1"));
                                            ("u3.js", File (Raw "3"))])])] |}.


(** Scripting units A and B, a unit C of another kind. *)
Definition p2 : ProxyBundle :=
  {| name := "P2";
     source_dir :=
       Dir [("policies", Dir [("A.xml", js_policy "jsc://a.js");
                              ("B.xml", js_policy "jsc://b.js");
                              ("C.xml", other_policy)]);
            ("proxies",
             Dir [("default.xml",
                   endpoint [step "A"; step "B"; step "C"])])] |}.

(** A document whose root element is a step naming a unit that is not
    there. *)
Definition lone_step : fsnode :=
  Dir [("policies", Dir [("Keep.xml", other_policy)]);
       ("proxies", Dir [("lone.xml", File (Doc (step "Gone")))])].

(** A path with a step that has no name, one whose name is empty, one
    that names a unit that is there and one that names a unit that is
    not. *)
Definition mixed_path : Element :=
  el "Request" [el "Step" []; el "Step" [el "Name" []];
                step "Keep"; step "Gone"].

(** One unattached scripting unit whose link has no ['://']. *)
Definition bad_link : ProxyBundle :=
  {| name := "bad";
     source_dir :=
       Dir [("bad.xml", manifest);
            ("policies", Dir [("J.xml", js_policy "jsc:j.js")]);
            ("resources", Dir [("jsc", Dir [("j.js", File (Raw "j"))])])] |}.

(** Every unit is attached, and one step names a unit that was never
    there. *)
Definition ghost : ProxyBundle :=
  {| name := "ghost";
     source_dir :=
       Dir [("ghost.xml", manifest);
            ("policies", Dir [("A.xml", other_policy)]);
            ("proxies",
             Dir [("default.xml", endpoint [step "A"; step "Ghost"])])] |}.



End Sample.


(** * The rest of the program: vocabulary *)


(** * The rest of the program *)

(** ** Dictionaries that keep the order of insertion *)

Module Dict.

(** [d.get(k)], [None] when [k not in d]. *)
Definition get {V : Type} (k : string) (d : list (string * V)) : option V :=
  snd <$> List.find (λ kv, bool_decide (kv.1 = k)) d.

(** [d[k] = v]: the value of a key that is there is replaced where it
    stands, a new key goes to the end. *)
Fixpoint set {V : Type} (k : string) (v : V) (d : list (string * V))
  : list (string * V) :=
  match d with
  | [] => [(k, v)]
  | kv :: d' => if bool_decide (kv.1 = k) then (k, v) :: d' else kv :: set k v d'
  end.

End Dict.

(** ** parse_rule_arguments *)

Definition AVAILABLE_RULES : list (string * list string) :=
  [("unattached-policy", ["report-only"; "apply-and-report"]);
   ("sequential-js", ["report-only"])].

(** The three [argparse.ArgumentTypeError]s of the function, by what
    their message is made of. *)
Inductive ArgumentTypeError : Type :=
  | InvalidFormat (arg : string)
  | UnknownRule (rule_name : string)
  | UnsupportedVariant (variant rule_name : string).

(** [':' in arg], then [arg.split(':', 1)]: the text before the first
    colon and the text after it; [None] when there is no colon. *)
Fixpoint split_colon (arg : string) : option (string * string) :=
  match arg with
  | EmptyString => None
  | String c rest =>
      if bool_decide (c = ":"%char) then Some (EmptyString, rest)
      else match split_colon rest with
           | Some (rule_name, variant) => Some (String c rule_name, variant)
           | None => None
           end
  end.

(** The loop over the arguments; [parsed_rules] is the dictionary built
    so far. *)
Fixpoint parse_rule_loop (parsed_rules : list (string * string))
  (rule_args : list string) : ArgumentTypeError + list (string * string) :=
  match rule_args with
  | [] => inr parsed_rules
  | arg :: rest =>
      match split_colon arg with
      | None => inl (InvalidFormat arg)
      | Some (rule_name, variant) =>
          match Dict.get rule_name AVAILABLE_RULES with
          | None => inl (UnknownRule rule_name)
          | Some variants =>
              if bool_decide (variant ∈ variants)
              then parse_rule_loop (Dict.set rule_name variant parsed_rules)
                     rest
              else inl (UnsupportedVariant variant rule_name)
          end
      end
  end.

Definition parse_rule_arguments (rule_args : list string)
  : ArgumentTypeError + list (string * string) :=
  parse_rule_loop [] rule_args.

(** An argument the function accepts: [rule:variant] with no colon in
    [rule], [rule] an available rule and [variant] one of its variants. *)
Definition accepted_arg (arg : string) : Prop :=
  ∃ rule_name variant variants,
    arg = rule_name +:+ ":" +:+ variant
    ∧ split_colon rule_name = None
    ∧ (rule_name, variants) ∈ AVAILABLE_RULES
    ∧ variant ∈ variants.

(** A dictionary of rules the program can run: each rule once, with one
    of its variants. *)
Definition valid_rules (rules : list (string * string)) : Prop :=
  NoDup (map fst rules)
  ∧ ∀ r v, (r, v) ∈ rules →
           ∃ vs, (r, vs) ∈ AVAILABLE_RULES ∧ v ∈ vs.

(** The variant an argument gives to [rule_name], if it is for it. *)
Definition variant_for (rule_name : string) (arg : string) : option string :=
  match split_colon arg with
  | Some (r, v) => if bool_decide (r = rule_name) then Some v else None
  | None => None
  end.

(** ** generate_report_text *)

(** ["\n".join(l)] and [", ".join(l)] *)
Fixpoint join (sep : string) (l : list string) : string :=
  match l with
  | [] => ""
  | [x] => x
  | x :: l' => x +:+ sep +:+ join sep l'
  end.

Definition NEWLINE : string := String (ascii_of_nat 10) EmptyString.


(** ** run_sequential_js_rule and generate_sequential_js_report *)

(** [{'sequences': sequences} if sequences else {}]: the dictionary with
    its one key, or the empty dictionary. *)
Definition run_sequential_js_rule (proxy : ProxyBundle)
  : result (option (list Sequence)) :=
  sequences ← find_sequential_js_steps proxy;
  match sequences with
  | [] => Ok None
  | _ => Ok (Some sequences)
  end.

(** [sorted(results_by_proxy.items())]: the keys of a dictionary are
    distinct, so the pairs are ordered by proxy name. *)
Definition sorted_items (results_by_proxy : gmap string (list Sequence))
  : list (string * list Sequence) :=
  merge_sort (λ a b, String.le a.1 b.1) (map_to_list results_by_proxy).

(** The two lines of one sequence. *)
Definition sequence_lines (seq_info : Sequence) : list string :=
  ["  - Location: " +:+ file seq_info +:+ " -> " +:+ location seq_info;
   "    Sequence: " +:+ join ", " (sequence seq_info)].

(** The body of the loop over the proxies; the state is the pair of
    [report_lines] and [total_sequences_found]. *)
Definition report_proxy (st : list string * nat)
  (item : string * list Sequence) : list string * nat :=
  match item.2 with
  | [] => st
  | _ =>
      let st1 :=
        (st.1 ++ ["--- Found sequential JS steps in proxy: " +:+ item.1
                  +:+ " ---"], st.2) in
      let st2 :=
        foldl (λ s seq_info, (s.1 ++ sequence_lines seq_info, S s.2))
          st1 item.2 in
      (st2.1 ++ [""], st2.2)
  end.

Definition NO_SEQUENCES : string :=
  "No sequential, condition-less JavaScript steps found across all proxies.".

(** [report_lines] at the end of the function, with the count. *)
Definition sequential_js_report_lines
  (results_by_proxy : gmap string (list Sequence)) : list string * nat :=
  let st := foldl report_proxy ([], 0) (sorted_items results_by_proxy) in
  if bool_decide (st.2 = 0) then (st.1 ++ [NO_SEQUENCES], st.2) else st.

(** The text written to the report file. *)
Definition generate_sequential_js_report
  (results_by_proxy : gmap string (list Sequence)) : string :=
  join NEWLINE (sequential_js_report_lines results_by_proxy).1.

(** ** main: the results of the rule [sequential-js] *)

(** The body of the loop of [main] over the proxies, for the rule
    [sequential-js]: a proxy whose rule returns the empty dictionary gets
    no entry, and an exception of the rule is logged and goes no
    further. *)
Definition collect_sequential_js
  (sequential_js_results : gmap string (list Sequence)) (proxy : ProxyBundle)
  : gmap string (list Sequence) :=
  match run_sequential_js_rule proxy with
  | Ok (Some sequences) => <[name proxy := sequences]> sequential_js_results
  | Ok None => sequential_js_results
  | Raise _ => sequential_js_results
  end.

(** [sequential_js_results] at the end of the loop. *)
Definition sequential_js_results (proxy_objects : list ProxyBundle)
  : gmap string (list Sequence) :=
  foldl collect_sequential_js ∅ proxy_objects.

(** ** unzip_proxies: the name of a bundle *)

(** [\d] on one character, for the code points below 256. *)
Definition is_digit (c : ascii) : bool :=
  ((48 <=? N_of_ascii c) && (N_of_ascii c <=? 57))%N.

(** [$]: the end of the string, or the line feed that ends the string. *)
Definition at_end (s : string) : bool :=
  bool_decide (s = "") || bool_decide (s = NEWLINE).

Fixpoint drop_digits (s : string) : string :=
  match s with
  | String c s' => if is_digit c then drop_digits s' else s
  | EmptyString => EmptyString
  end.

(** [_\d{4}_\d{2}_\d{2}$] *)
Definition date_tail (s : string) : bool :=
  match s with
  | String u1 (String y1 (String y2 (String y3 (String y4
      (String u2 (String m1 (String m2
        (String u3 (String d1 (String d2 rest)))))))))) =>
      bool_decide (u1 = "_"%char) && is_digit y1 && is_digit y2
      && is_digit y3 && is_digit y4
      && bool_decide (u2 = "_"%char) && is_digit m1 && is_digit m2
      && bool_decide (u3 = "_"%char) && is_digit d1 && is_digit d2
      && at_end rest
  | _ => false
  end.

(** [_rev\d+_\d{4}_\d{2}_\d{2}$]: after [\d+] comes an underscore, so
    [\d+] takes the whole run of digits. *)
Definition rev_suffix (s : string) : bool :=
  match s with
  | String c1 (String c2 (String c3 (String c4 r))) =>
      bool_decide (c1 = "_"%char) && bool_decide (c2 = "r"%char)
      && bool_decide (c3 = "e"%char) && bool_decide (c4 = "v"%char)
      && match r with String d _ => is_digit d | EmptyString => false end
      && date_tail (drop_digits r)
  | _ => false
  end.

(** [re.match(r'^(.*?)(?:_rev\d+_\d{4}_\d{2}_\d{2})?$', stem)], then
    [.group(1)]: the lazy group takes the shortest prefix after which the
    rest is a revision suffix or the end; [.] does not match a line feed.
    [None] when there is no match, where [.group] raises. *)
Fixpoint bundle_name (stem : string) : option string :=
  if rev_suffix stem || at_end stem then Some EmptyString
  else match stem with
       | EmptyString => None
       | String c rest =>
           if bool_decide (c = "010"%char) then None
           else String c <$> bundle_name rest
       end.

(** No line feed in a string. *)
Fixpoint one_line (s : string) : bool :=
  match s with
  | EmptyString => true
  | String c s' => negb (bool_decide (c = "010"%char)) && one_line s'
  end.

(** A string of digits. *)
Fixpoint all_digits (s : string) : bool :=
  match s with
  | EmptyString => true
  | String c s' => is_digit c && all_digits s'
  end.

(** A revision suffix as the archives carry it: [_rev], the digits [n] of
    the revision, and a date of four, two and two digits. *)
Definition revision (n : string) (y1 y2 y3 y4 m1 m2 d1 d2 : ascii) : string :=
  "_rev" +:+ n
  +:+ String "_" (String y1 (String y2 (String y3 (String y4
        (String "_" (String m1 (String m2
          (String "_" (String d1 (String d2 "")))))))))).

Definition revision_digits (n : string) (y1 y2 y3 y4 m1 m2 d1 d2 : ascii)
  : Prop :=
  n ≠ "" ∧ all_digits n = true
  ∧ Forall (λ c, is_digit c = true) [y1; y2; y3; y4; m1; m2; d1; d2].


Lemma Element_children_ind (P : Element → Prop) :
  (∀ tg at_ tx tl cs, Forall P cs → P (mkElement tg at_ tx tl cs)) →
  ∀ e, P e.
Proof.
  intros IH. fix rec 1. intros [tg at_ tx tl cs]. apply IH.
  induction cs as [|c cs IHcs]; constructor; [apply rec | exact IHcs].
Qed.

(** ** The definitions on concrete inputs *)

Example strip_inner_space : Str.strip "  a b  " = "a b".
Proof. reflexivity. Qed.

Example split_link : Str.split "://" "jsc://f.js" = ["jsc"; "f.js"].
Proof. reflexivity. Qed.

Example split_no_separator : Str.split "://" "jsc:f.js" = ["jsc:f.js"].
Proof. reflexivity. Qed.

Example split_two_separators : Str.split "://" "a://b://c" = ["a"; "b"; "c"].
Proof. reflexivity. Qed.

Example stem_last_suffix : Path.stem "a.b.xml" = "a.b".
Proof. reflexivity. Qed.

Example stem_dot_file : Path.stem ".xml" = ".xml".
Proof. reflexivity. Qed.

Example sorted_file_names : sorted ["a.xml"; "a-b.xml"] = ["a-b.xml"; "a.xml"].
Proof. reflexivity. Qed.

Example p1_unattached : unattached_policies Sample.p1 = Ok ["U2"; "U3"].
Proof. vm_compute. reflexivity. Qed.

Example p1_cleaned_units :
  (λ out, map fst (Path.entries (Path.child "policies" out)))
    <$> match clean_and_save Sample.p1 with
        | Ok out => Some out
        | Raise _ => None
        end
  = Some ["U1.xml"].
Proof. vm_compute. reflexivity. Qed.

Example p1_cleaned_manifest :
  (λ out, Path.lookup ["P1.xml"] out)
    <$> match clean_and_save Sample.p1 with
        | Ok out => Some out
        | Raise _ => None
        end
  = Some (Some (File (Doc (Sample.el "APIProxy"
       [Sample.el "Policies" [Sample.leaf "Policy" "U1"];
        Sample.el "Resources" [Sample.leaf "Resource" "jsc://u1.js"]])))).
Proof. vm_compute. reflexivity. Qed.

Example p2_sequences :
  find_sequential_js_steps Sample.p2
  = Ok [mk_sequence "default.xml" "PreFlow/Request" ["A"; "B"]].
Proof. vm_compute. reflexivity. Qed.

(** ** Loops *)


(** ** Names *)





(** ** Step names *)











Lemma sorted_StronglySorted l : StronglySorted String.le (sorted l).
Proof. apply StronglySorted_merge_sort; apply _. Qed.

Lemma sorted_Permutation l : sorted l ≡ₚ l.
Proof. apply merge_sort_Permutation. Qed.

(** There is one sorted arrangement of a list of strings, so [sorted] is
    what any correct sort returns. *)
Lemma sorted_unique l l' :
  l' ≡ₚ l → StronglySorted String.le l' → l' = sorted l.
Proof.
  intros Hp Hs. apply (StronglySorted_unique String.le); [done| |].
  - apply sorted_StronglySorted.
  - by rewrite sorted_Permutation.
Qed.



(** ** The referenced names *)

Lemma step_name_text_Some step t :
  step_name_text step = Some t
  ↔ ∃ nm, ET.find "Name" step = Some nm ∧ text nm = Some t ∧ t ≠ "".
Proof.
  unfold step_name_text. split.
  - destruct (ET.find "Name" step) as [nm|]; [|done].
    destruct (text nm) as [t'|] eqn:Ht; [|done].
    case_bool_decide; [done|]. intros [= ->]. eauto.
  - intros (nm & -> & -> & Hne). by rewrite bool_decide_false.
Qed.






(** ** The Sequence Detector *)

















(** ** Stripping the orphaned steps of a document *)

Lemma iter_descendants e : ET.iter e = e :: ET.descendants e.
Proof. by destruct e. Qed.

Lemma elem_of_flat_map {A B} (f : A → list B) l y :
  y ∈ flat_map f l ↔ ∃ x, x ∈ l ∧ y ∈ f x.
Proof.
  rewrite list_elem_of_In, in_flat_map.
  split; intros (x & ? & ?); exists x; by rewrite ?list_elem_of_In in *.
Qed.

Lemma elem_of_descendants d e :
  d ∈ ET.descendants e
  ↔ ∃ c, c ∈ children e ∧ (d = c ∨ d ∈ ET.descendants c).
Proof.
  unfold ET.descendants at 1. rewrite elem_of_flat_map.
  split; intros (c & Hc & Hd); exists c; (split; [done|]);
    rewrite iter_descendants, elem_of_cons in *; done.
Qed.

Lemma strip_orphans_children remaining e :
  children (strip_orphans remaining e)
  = map (strip_orphans remaining)
      (List.filter (λ c, negb (removed remaining c)) (children e)).
Proof.
  destruct e as [tg at_ tx tl cs]. simpl.
  induction cs as [|c cs IH]; simpl; [done|].
  destruct (removed remaining c); simpl; by rewrite IH.
Qed.

Lemma strip_orphans_tag remaining e : tag (strip_orphans remaining e) = tag e.
Proof. by destruct e. Qed.
Lemma strip_orphans_text remaining e :
  text (strip_orphans remaining e) = text e.
Proof. by destruct e. Qed.

(** A child that is not a step is found after stripping where it was
    found before. *)
Lemma find_strip_orphans remaining t e :
  t ≠ "Step" →
  ET.find t (strip_orphans remaining e)
  = strip_orphans remaining <$> ET.find t e.
Proof.
  intros Ht. unfold ET.find. rewrite strip_orphans_children.
  induction (children e) as [|c cs IH]; simpl; [done|].
  destruct (removed remaining c) eqn:Hr; simpl.
  - unfold removed in Hr. apply andb_true_iff in Hr as [Hc _].
    apply bool_decide_eq_true in Hc.
    rewrite bool_decide_false by congruence. done.
  - rewrite strip_orphans_tag. by case_bool_decide.
Qed.

Lemma step_name_text_strip_orphans remaining e :
  step_name_text (strip_orphans remaining e) = step_name_text e.
Proof.
  unfold step_name_text. rewrite find_strip_orphans by done.
  destruct (ET.find "Name" e) as [nm|]; simpl; [|done].
  by rewrite strip_orphans_text.
Qed.

Lemma removed_strip_orphans remaining e :
  removed remaining (strip_orphans remaining e) = removed remaining e.
Proof.
  unfold removed, is_orphan.
  by rewrite strip_orphans_tag, step_name_text_strip_orphans.
Qed.

(** What is below the root after stripping was below the root before, and
    was not taken out. *)
Lemma descendants_strip_orphans remaining e d' :
  d' ∈ ET.descendants (strip_orphans remaining e) →
  ∃ d, d ∈ ET.descendants e ∧ d' = strip_orphans remaining d
       ∧ removed remaining d = false.
Proof.
  revert d'. induction e as [tg at_ tx tl cs IH] using Element_children_ind.
  intros d' (c' & Hc' & Hd')%elem_of_descendants.
  rewrite strip_orphans_children in Hc'. simpl in Hc'.
  apply list_elem_of_fmap in Hc' as (c & -> & Hc).
  apply list_elem_of_In, filter_In in Hc as [Hc%list_elem_of_In Hr].
  apply negb_true_iff in Hr.
  destruct Hd' as [->|Hd'].
  - exists c. split; [|done]. apply elem_of_descendants. eauto.
  - rewrite Forall_forall in IH.
    destruct (IH c Hc d' Hd') as (d & Hd & -> & Hrd).
    exists d. split; [|done]. apply elem_of_descendants. eauto.
Qed.

(** Where nothing is taken out, nothing changes. *)
Lemma strip_orphans_id remaining e :
  (∀ d, d ∈ ET.descendants e → removed remaining d = false) →
  strip_orphans remaining e = e.
Proof.
  induction e as [tg at_ tx tl cs IH] using Element_children_ind.
  intros Hd. simpl. f_equal.
  assert (∀ c, c ∈ cs → removed remaining c = false
                        ∧ strip_orphans remaining c = c) as Hcs.
  { intros c Hc. rewrite Forall_forall in IH. split.
    - apply Hd, elem_of_descendants. eauto.
    - apply IH; [done|]. intros d Hdc. apply Hd, elem_of_descendants. eauto. }
  clear IH Hd. induction cs as [|c cs IHcs]; simpl; [done|].
  destruct (Hcs c) as [-> ->]; [left|]. simpl. f_equal.
  apply IHcs. intros c' Hc'. apply Hcs. by right.
Qed.

Lemma changed_false remaining root :
  changed remaining root = false
  ↔ ∀ d, d ∈ ET.descendants root → removed remaining d = false.
Proof.
  unfold changed, ET.findall_desc, removed.
  rewrite <- not_true_iff_false, existsb_exists. split.
  - intros Hn d Hd. apply not_true_iff_false. intros [Ht Ho]%andb_true_iff.
    apply Hn. exists d. split; [|done].
    apply filter_In. by rewrite <- list_elem_of_In.
  - intros Hd (d & [Hin Ht]%filter_In & Ho).
    apply list_elem_of_In in Hin.
    specialize (Hd d Hin). by rewrite Ht, Ho in Hd.
Qed.

(** The file that is written, or left alone, holds the stripped tree. *)
Lemma strip_file_doc remaining root :
  strip_file remaining (Doc root) = Doc (strip_orphans remaining root).
Proof.
  unfold strip_file. destruct (changed remaining root) eqn:Hc; [done|].
  by rewrite strip_orphans_id by (by apply changed_false).
Qed.



(** ** The pass over the tree *)

Lemma fsnode_entries_ind (P : fsnode → Prop) :
  (∀ c, P (File c)) →
  (∀ es, Forall (λ e, P e.2) es → P (Dir es)) →
  ∀ n, P n.
Proof.
  intros Hfile Hdir. fix rec 1. intros [c|es]; [apply Hfile|].
  apply Hdir. induction es as [|[nm n] es IH]; constructor; [apply rec|done].
Qed.

Lemma strip_tree_dir remaining es :
  strip_tree remaining (Dir es)
  = Dir (map (λ e, (e.1, strip_node remaining e.1 e.2)) es).
Proof.
  simpl. f_equal. apply map_ext. by intros [nm [c|es']].
Qed.

Lemma child_strip_tree remaining nm n :
  Path.child nm (strip_tree remaining n)
  = strip_node remaining nm <$> Path.child nm n.
Proof.
  destruct n as [c|es]; [done|]. rewrite strip_tree_dir.
  unfold Path.child. simpl.
  induction es as [|[nm' n'] es IH]; simpl; [done|].
  case_bool_decide; simpl; [by subst|done].
Qed.

Lemma glob_names_strip_node remaining pat nm n :
  map fst (Path.glob pat (Some (strip_node remaining nm n)))
  = map fst (Path.glob pat (Some n)).
Proof.
  destruct n as [c|es]; [done|]. unfold strip_node.
  rewrite strip_tree_dir. unfold Path.glob. simpl.
  induction es as [|[nm' n'] es IH]; simpl; [done|].
  destruct (pat nm'); simpl; by rewrite IH.
Qed.

(** The pass does not change which units are there. *)
Lemma remaining_policies_strip_tree remaining n :
  remaining_policies (strip_tree remaining n) = remaining_policies n.
Proof.
  unfold remaining_policies. rewrite child_strip_tree.
  destruct (Path.child "policies" n) as [p|]; [|done]. simpl.
  f_equal.
  rewrite <- !(map_map fst Path.stem). f_equal.
  apply glob_names_strip_node.
Qed.

(** The documents after the pass are the documents before it, stripped. *)
Lemma xml_docs_strip_tree remaining n :
  xml_docs (strip_tree remaining n)
  = map (strip_orphans remaining) (xml_docs n).
Proof.
  induction n as [c|es IH] using fsnode_entries_ind; [done|].
  rewrite strip_tree_dir. simpl.
  induction IH as [|[nm n] es Hn _ IHes]; simpl; [done|].
  rewrite map_app, <- IHes. f_equal.
  destruct n as [[root|d]|es']; simpl.
  - change (if changed remaining root
            then Doc (strip_orphans remaining root) else Doc root)
      with (strip_file remaining (Doc root)).
    rewrite strip_file_doc. by destruct (Path.match_xml nm).
  - by destruct (Path.match_xml nm).
  - apply Hn.
Qed.

(** C5, as the code has it. After the pass that strips the orphaned steps,
    in every document of the tree (every ['*.xml'] file, at any depth,
    that parses), every [Step] element below the root whose [Name] child
    has a text that is not empty has its trimmed name among the base names
    of the unit files of the tree. *)
Theorem C5_no_dangling_step_below_root (cleaned : fsnode)
  (root step nm : Element) (t : string) :
  root ∈ xml_docs (_remove_orphaned_steps cleaned) →
  step ∈ ET.descendants root →
  tag step = "Step" →
  ET.find "Name" step = Some nm → text nm = Some t → t ≠ "" →
  Str.strip t ∈ remaining_policies (_remove_orphaned_steps cleaned).
Proof.
  unfold _remove_orphaned_steps.
  rewrite xml_docs_strip_tree, remaining_policies_strip_tree.
  intros (root0 & -> & _)%list_elem_of_fmap Hstep Htag Hnm Ht Hne.
  apply descendants_strip_orphans in Hstep as (d & _ & -> & Hkeep).
  rewrite strip_orphans_tag in Htag.
  assert (step_name_text d = Some t) as Hd.
  { rewrite <- (step_name_text_strip_orphans (remaining_policies cleaned)).
    apply step_name_text_Some. eauto. }
  unfold removed, is_orphan in Hkeep. rewrite Htag, Hd in Hkeep.
  simpl in Hkeep. apply bool_decide_eq_false in Hkeep.
  by apply dec_stable.
Qed.

Lemma C5_witness :
  "Keep" ∈ remaining_policies
             (_remove_orphaned_steps
                (Dir [("policies", Dir [("Keep.xml", Sample.other_policy)]);
                      ("proxies",
                       Dir [("default.xml",
                             File (Doc Sample.mixed_path))])])).
Proof.
  apply (C5_no_dangling_step_below_root _
           (Sample.el "Request"
              [Sample.el "Step" []; Sample.el "Step" [Sample.el "Name" []];
               Sample.step "Keep"])
           (Sample.step "Keep") (Sample.leaf "Name" "Keep") "Keep").
  - vm_compute. right. left.
  - vm_compute. do 3 right. left.
  - reflexivity.
  - reflexivity.
  - reflexivity.
  - discriminate.
Defined.

(** C5, as stated, fails: a document whose root element is a step that
    names a unit that is not there comes out of the pass as it went in, so
    a step of a document of the cleaned tree names no remaining unit. *)
Lemma C5_root_step_dangles :
  _remove_orphaned_steps Sample.lone_step = Sample.lone_step
  ∧ Sample.step "Gone" ∈ xml_docs (_remove_orphaned_steps Sample.lone_step)
  ∧ ("Gone" ∉ remaining_policies (_remove_orphaned_steps Sample.lone_step))
  ∧ ¬ (∀ root, root ∈ xml_docs (_remove_orphaned_steps Sample.lone_step) →
               no_dangling
                 (remaining_policies (_remove_orphaned_steps Sample.lone_step))
                 (ET.iter root)).
Proof.
  assert (_remove_orphaned_steps Sample.lone_step = Sample.lone_step) as Hc
    by (vm_compute; reflexivity).
  rewrite Hc.
  assert (remaining_policies Sample.lone_step = {[ "Keep" ]}) as Hr
    by (vm_compute; reflexivity).
  assert (Sample.step "Gone" ∈ xml_docs Sample.lone_step) as Hdoc
    by (vm_compute; right; left).
  split; [done|]. split; [done|]. rewrite Hr.
  split; [by intros [=]%elem_of_singleton|].
  intros Hall.
  specialize (Hall _ Hdoc (Sample.step "Gone") "Gone").
  apply elem_of_singleton in Hall; [discriminate Hall|left|done|done].
Qed.

(** ** The loop over the unattached policies *)

Lemma xml_name_inj p q : p +:+ ".xml" = q +:+ ".xml" → p = q.
Proof.
  revert q. induction p as [|a p IH]; intros [|b q] H; simpl in *.
  - done.
  - injection H as <- H. destruct q as [|? [|? [|? [|? ?]]]]; discriminate.
  - injection H as -> H. destruct p as [|? [|? [|? [|? ?]]]]; discriminate.
  - injection H as -> H. f_equal. by apply IH.
Qed.

Lemma child_filter_other c q es :
  q ≠ c →
  Path.child q (Dir (List.filter (λ e, negb (bool_decide (e.1 = c))) es))
  = Path.child q (Dir es).
Proof.
  intros Hqc. unfold Path.child. cbn [Path.entries].
  induction es as [|[nm n] es IH]; [done|].
  cbn [List.filter List.find fst]. case_bool_decide as Hc; cbn [negb].
  - subst nm. by rewrite bool_decide_false by done.
  - cbn [List.find fst]. by case_bool_decide.
Qed.

Lemma child_map_named (f : fsnode → fsnode) c nm es :
  Path.child nm
    (Dir (map (λ e, if bool_decide (e.1 = c) then (e.1, f e.2) else e) es))
  = (if bool_decide (nm = c) then f else id) <$> Path.child nm (Dir es).
Proof.
  unfold Path.child. cbn [Path.entries].
  induction es as [|[nm' n'] es IH]; [done|].
  cbn [map List.find fst snd].
  destruct (decide (nm' = c)) as [->|Hc].
  - rewrite (bool_decide_true (c = c)) by done. cbn [fst snd].
    destruct (decide (c = nm)) as [<-|Hne].
    + by rewrite !(bool_decide_true (c = c)) by done.
    + rewrite (bool_decide_false (c = nm)) by done. apply IH.
  - rewrite (bool_decide_false (nm' = c)) by done. cbn [fst snd].
    destruct (decide (nm' = nm)) as [<-|Hne].
    + rewrite (bool_decide_true (nm' = nm')) by done.
      by rewrite (bool_decide_false (nm' = c)) by done.
    + rewrite (bool_decide_false (nm' = nm)) by done. apply IH.
Qed.

Lemma remove_two c1 c2 es :
  Path.remove [c1; c2] (Dir es)
  = Dir (map (λ e, if bool_decide (e.1 = c1)
                   then (e.1, Path.remove [c2] e.2) else e) es).
Proof. reflexivity. Qed.

Lemma remove_one c es :
  Path.remove [c] (Dir es)
  = Dir (List.filter (λ e, negb (bool_decide (e.1 = c))) es).
Proof. reflexivity. Qed.

Lemma lookup_two c1 c2 tree :
  Path.lookup [c1; c2] tree = Path.child c1 tree ≫= Path.child c2.
Proof.
  cbn [Path.lookup]. destruct (Path.child c1 tree) as [n|]; [|done].
  cbn [mbind option_bind]. by destruct (Path.child c2 n).
Qed.

Lemma lookup_policy_remove p q tree :
  p ≠ q →
  Path.lookup ["policies"; q] (Path.remove ["policies"; p] tree)
  = Path.lookup ["policies"; q] tree.
Proof.
  intros Hpq. destruct tree as [c|es]; [done|].
  rewrite !lookup_two, remove_two, child_map_named.
  rewrite bool_decide_true by done.
  destruct (Path.child "policies" (Dir es)) as [[c|es']|]; [done| |done].
  cbn [fmap option_fmap option_map mbind option_bind].
  rewrite remove_one. by apply child_filter_other.
Qed.

Lemma resource_link_remove p q tree :
  p ≠ q →
  resource_link (Path.remove ["policies"; p +:+ ".xml"] tree) q
  = resource_link tree q.
Proof.
  intros Hpq. unfold resource_link, _get_resource_url_from_policy_file.
  rewrite lookup_policy_remove; [done|]. by intros ?%xml_name_inj.
Qed.

(** An absent or empty link: the unit file goes, nothing else happens. *)
Lemma remove_policy_no_link out p :
  resource_link out p = Ok None ∨ resource_link out p = Ok (Some "") →
  remove_policy out p = unlink_if_exists ["policies"; p +:+ ".xml"] out.
Proof.
  unfold remove_policy, resource_link.
  intros [-> | ->]; cbn [mbind result_bind];
    by destruct (unlink_if_exists _ out).
Qed.

Lemma remove_policy_no_link_tree out p :
  resource_link out p = Ok None ∨ resource_link out p = Ok (Some "") →
  remove_policy out p = Ok out
  ∨ remove_policy out p = Ok (Path.remove ["policies"; p +:+ ".xml"] out).
Proof.
  intros Hl. rewrite (remove_policy_no_link _ _ Hl).
  unfold unlink_if_exists. revert Hl.
  unfold resource_link, _get_resource_url_from_policy_file.
  destruct (Path.lookup _ out) as [[c|es]|]; [by right| |by left].
  simpl. intros [?|?]; discriminate.
Qed.

(** A link that does not split in two: [ValueError]. *)
Lemma remove_policy_malformed out u url :
  resource_link out u = Ok (Some url) → malformed_link url →
  remove_policy out u = Raise ValueError.
Proof.
  unfold remove_policy, resource_link. intros Hl [Hne Hlen].
  rewrite Hl. cbn [mbind result_bind].
  destruct (unlink_if_exists _ out) as [out'|e] eqn:Hun.
  - rewrite bool_decide_false by done.
    destruct (Str.split "://" url) as [|? [|? [|? ?]]]; done.
  - exfalso. revert Hun Hl.
    unfold unlink_if_exists, _get_resource_url_from_policy_file.
    destruct (Path.lookup _ out) as [[c|es]|]; done.
Qed.

Lemma for_each_remove_policy_malformed pre u post url out :
  NoDup (pre ++ [u]) →
  (∀ p, p ∈ pre → resource_link out p = Ok None
                   ∨ resource_link out p = Ok (Some "")) →
  resource_link out u = Ok (Some url) → malformed_link url →
  for_each remove_policy (pre ++ u :: post) out = Raise ValueError.
Proof.
  revert out. induction pre as [|p pre IH]; intros out Hnd Hpre Hu Hurl.
  { simpl. by rewrite (remove_policy_malformed _ _ _ Hu Hurl). }
  simpl in Hnd. apply NoDup_cons in Hnd as [Hp Hnd].
  assert (p ≠ u) as Hpu.
  { intros ->. apply Hp. apply elem_of_app. right. left. }
  cbn [app for_each].
  destruct (remove_policy_no_link_tree out p) as [-> | ->];
    [apply Hpre; left| |]; cbn [mbind result_bind].
  - apply IH; [done| |done..]. intros q Hq. apply Hpre. by right.
  - apply IH; [done| |by rewrite resource_link_remove|done].
    intros q Hq. rewrite resource_link_remove; [apply Hpre; by right|].
    intros ->. apply Hp. apply elem_of_app. by left.
Qed.

Lemma unattached_policies_NoDup self l :
  unattached_policies self = Ok l → NoDup l.
Proof.
  unfold unattached_policies.
  destruct (referenced_policies self) as [refs|e]; [|done].
  simpl. intros [= <-]. rewrite sorted_Permutation. apply NoDup_elements.
Qed.

(** C3, as the code has it. In the loop over the unattached units, a unit
    whose link is absent or empty has its file removed and nothing else;
    a unit whose link is there and does not split into exactly two parts
    around ['://'] makes the loop body raise [ValueError]; and when the
    first unattached unit, in sorted order, that has a link has such a
    link, [clean_and_save] ends with that [ValueError]: the steps are not
    stripped and the manifests are not resynchronised. *)
Theorem C3_malformed_link_aborts (self : ProxyBundle)
  (pre post : list string) (u url : string) :
  unattached_policies self = Ok (pre ++ u :: post) →
  (∀ p, p ∈ pre → resource_link (source_dir self) p = Ok None
                   ∨ resource_link (source_dir self) p = Ok (Some "")) →
  resource_link (source_dir self) u = Ok (Some url) →
  malformed_link url →
  (∀ out p, resource_link out p = Ok None
            ∨ resource_link out p = Ok (Some "") →
            remove_policy out p
            = unlink_if_exists ["policies"; p +:+ ".xml"] out)
  ∧ (∀ out, resource_link out u = Ok (Some url) →
            remove_policy out u = Raise ValueError)
  ∧ clean_and_save self = Raise ValueError.
Proof.
  intros Hun Hpre Hu Hurl.
  split; [apply remove_policy_no_link|].
  split; [intros out Hout; by apply (remove_policy_malformed _ _ url)|].
  unfold clean_and_save. rewrite Hun. cbn [mbind result_bind].
  rewrite (for_each_remove_policy_malformed pre u post url); try done.
  apply unattached_policies_NoDup in Hun.
  change (u :: post) with ([u] ++ post) in Hun.
  rewrite (assoc_L (++)) in Hun.
  by apply NoDup_app in Hun as [? _].
Qed.

Lemma C3_witness : clean_and_save Sample.bad_link = Raise ValueError.
Proof.
  apply (C3_malformed_link_aborts Sample.bad_link [] [] "J" "jsc:j.js").
  - vm_compute. reflexivity.
  - intros p Hp. by apply elem_of_nil in Hp.
  - reflexivity.
  - split; [discriminate|]. vm_compute. discriminate.
Defined.

(** C3, as stated, fails: the one unattached unit of this bundle has the
    link [jsc:j.js], which does not split in two, and the cleaning
    operation ends with [ValueError] instead of going on. *)
Lemma C3_malformed_link_is_fatal :
  unattached_policies Sample.bad_link = Ok ["J"]
  ∧ resource_link (source_dir Sample.bad_link) "J" = Ok (Some "jsc:j.js")
  ∧ Str.split "://" "jsc:j.js" = ["jsc:j.js"]
  ∧ clean_and_save Sample.bad_link = Raise ValueError
  ∧ ¬ (∃ out, clean_and_save Sample.bad_link = Ok out).
Proof.
  assert (clean_and_save Sample.bad_link = Raise ValueError) as Hc
    by (vm_compute; reflexivity).
  repeat split; try (vm_compute; reflexivity).
  rewrite Hc. by intros (out & ?).
Qed.

(** ** Cleaning a bundle in which nothing is to be removed *)


Lemma xml_docs_cons nm n es :
  xml_docs (Dir ((nm, n) :: es))
  = match n with
    | File (Doc root) => if Path.match_xml nm then [root] else []
    | File (Raw _) => []
    | Dir _ => xml_docs n
    end ++ xml_docs (Dir es).
Proof. reflexivity. Qed.

Lemma strip_tree_id remaining n :
  (∀ root, root ∈ xml_docs n → strip_orphans remaining root = root) →
  strip_tree remaining n = n.
Proof.
  induction n as [c|es IH] using fsnode_entries_ind; [done|].
  intros Hdocs. rewrite strip_tree_dir. f_equal.
  induction IH as [|[nm n] es Hn _ IHes]; [done|].
  cbn [map fst snd]. f_equal.
  - f_equal. destruct n as [[root|d]|es']; unfold strip_node.
    + destruct (Path.match_xml nm) eqn:Hm; [|done].
      rewrite strip_file_doc, Hdocs; [done|].
      rewrite xml_docs_cons, Hm. left.
    + by destruct (Path.match_xml nm).
    + apply Hn. intros root Hr. apply Hdocs.
      rewrite xml_docs_cons. apply elem_of_app. by left.
  - apply IHes. intros root Hr. apply Hdocs.
    rewrite xml_docs_cons. apply elem_of_app. by right.
Qed.







(** ** The sections of a manifest *)

Lemma set_items_tag item_tag items elem :
  tag (set_items item_tag items elem) = tag elem.
Proof. done. Qed.

Lemma find_update_first s it items cs e :
  List.find (λ c, bool_decide (tag c = s)) cs = Some e →
  List.find (λ c, bool_decide (tag c = s)) (update_first s it items cs)
  = Some (set_items it items e).
Proof.
  induction cs as [|c cs IH]; [done|]. cbn [List.find update_first].
  case_bool_decide as Hc.
  - intros [= <-]. cbn [List.find]. rewrite set_items_tag.
    by rewrite bool_decide_true.
  - intros Hf. cbn [List.find]. rewrite bool_decide_false by done. by apply IH.
Qed.


Lemma find_snoc_None {A} (f : A → bool) l x :
  List.find f l = None → List.find f (l ++ [x]) = List.find f [x].
Proof.
  induction l as [|y l IH]; [done|]. simpl. by destruct (f y).
Qed.


(** After the update the section is there and holds the items. *)
Lemma find_update_manifest_section root s it items :
  ET.find s (_update_manifest_section root s it items)
  = Some (set_items it items (default (ET.new s) (ET.find s root))).
Proof.
  unfold _update_manifest_section.
  destruct (ET.find s root) as [e|] eqn:Hf; unfold ET.find in *;
    cbn [children default].
  - by apply find_update_first.
  - rewrite find_snoc_None by done. cbn [List.find].
    by rewrite set_items_tag, bool_decide_true.
Qed.


Lemma section_items_set_items it items elem :
  map text (children (set_items it items elem)) = map Some items.
Proof. cbn [set_items children]. by rewrite map_map. Qed.











(** ** Units that do not parse *)











(** * Further properties of the cleaner and of the detectors *)

(** ** The stripping pass, applied again *)

Lemma strip_orphans_idemp remaining e :
  strip_orphans remaining (strip_orphans remaining e)
  = strip_orphans remaining e.
Proof.
  apply strip_orphans_id. intros d' Hd'.
  apply descendants_strip_orphans in Hd' as (d & _ & -> & Hr).
  by rewrite removed_strip_orphans.
Qed.

(** X1. The pass that strips the orphaned steps is idempotent: a second
    pass over its result reads the same set of remaining units and
    changes nothing more. *)
Theorem remove_orphaned_steps_idempotent (cleaned : fsnode) :
  remaining_policies (_remove_orphaned_steps cleaned)
  = remaining_policies cleaned
  ∧ _remove_orphaned_steps (_remove_orphaned_steps cleaned)
    = _remove_orphaned_steps cleaned.
Proof.
  unfold _remove_orphaned_steps.
  rewrite remaining_policies_strip_tree. split; [done|].
  apply strip_tree_id. intros root Hr.
  rewrite xml_docs_strip_tree in Hr.
  apply list_elem_of_fmap in Hr as (root0 & -> & _).
  apply strip_orphans_idemp.
Qed.

(** ** What the stripping pass leaves alone *)

Lemma lookup_nonempty_file p c :
  p ≠ [] → Path.lookup p (File c) = None.
Proof. by destruct p. Qed.

Lemma lookup_strip_tree remaining p tree :
  p ≠ [] →
  ∃ nm, Path.lookup p (strip_tree remaining tree)
        = strip_node remaining nm <$> Path.lookup p tree.
Proof.
  revert tree. induction p as [|c p IH]; intros tree Hp; [done|].
  cbn [Path.lookup]. rewrite child_strip_tree.
  destruct (Path.child c tree) as [n|]; cbn [fmap option_fmap option_map
    mbind option_bind]; [|by exists c].
  destruct p as [|c' p'].
  { exists c. done. }
  destruct n as [f|es].
  - exists c. cbn [strip_node]. by rewrite !lookup_nonempty_file.
  - cbn [strip_node]. by apply IH.
Qed.

Lemma lookup_remove_orphaned_steps (cleaned : fsnode) (p : list string) :
  (is_Some (Path.lookup p (_remove_orphaned_steps cleaned))
   ↔ is_Some (Path.lookup p cleaned))
  ∧ (∀ d, Path.lookup p cleaned = Some (File (Raw d)) →
          Path.lookup p (_remove_orphaned_steps cleaned)
          = Some (File (Raw d)))
  ∧ (∀ es, Path.lookup p cleaned = Some (Dir es) →
           ∃ es', Path.lookup p (_remove_orphaned_steps cleaned)
                  = Some (Dir es')
                  ∧ map fst es' = map fst es)
  ∧ (∀ root, Path.lookup p cleaned = Some (File (Doc root)) →
             Path.lookup p (_remove_orphaned_steps cleaned)
             = Some (File (Doc root))
             ∨ Path.lookup p (_remove_orphaned_steps cleaned)
               = Some (File (Doc (strip_orphans (remaining_policies cleaned)
                                    root)))).
Proof.
  unfold _remove_orphaned_steps.
  set (remaining := remaining_policies cleaned).
  assert (∃ f, Path.lookup p (strip_tree remaining cleaned)
               = f <$> Path.lookup p cleaned
               ∧ (∀ n, f n = strip_tree remaining n
                       ∨ ∃ nm, f n = strip_node remaining nm n))
    as (f & -> & Hf).
  { destruct p as [|c p].
    - exists (strip_tree remaining). split; [done|]. by left.
    - destruct (lookup_strip_tree remaining (c :: p) cleaned) as [nm Hnm];
        [done|].
      exists (strip_node remaining nm). split; [done|]. right. by exists nm. }
  split; [apply fmap_is_Some|].
  split; [|split].
  - intros d ->. cbn. f_equal.
    destruct (Hf (File (Raw d))) as [->|[nm ->]]; [done|].
    unfold strip_node, strip_file. by destruct (Path.match_xml nm).
  - intros es ->. cbn.
    assert (f (Dir es) = strip_tree remaining (Dir es)) as ->.
    { by destruct (Hf (Dir es)) as [->|[nm ->]]. }
    rewrite strip_tree_dir. eexists. split; [done|].
    rewrite map_map. by apply map_ext.
  - intros root ->. cbn.
    destruct (Hf (File (Doc root))) as [->|[nm ->]]; [by left|].
    cbn [strip_node]. destruct (Path.match_xml nm); [|by left].
    right. by rewrite strip_file_doc.
Qed.


(** ** The sections of a manifest, written again *)

Lemma set_items_set_items it1 items1 it2 items2 elem :
  set_items it2 items2 (set_items it1 items1 elem) = set_items it2 items2 elem.
Proof. done. Qed.

Lemma update_first_update_first s it1 items1 it2 items2 cs :
  update_first s it2 items2 (update_first s it1 items1 cs)
  = update_first s it2 items2 cs.
Proof.
  induction cs as [|c cs IH]; [done|]. cbn [update_first].
  case_bool_decide as Hc; cbn [update_first].
  - by rewrite set_items_tag, bool_decide_true.
  - by rewrite bool_decide_false, IH.
Qed.

Lemma update_first_snoc s it items cs x :
  List.find (λ c, bool_decide (tag c = s)) cs = None →
  tag x = s →
  update_first s it items (cs ++ [x]) = cs ++ [set_items it items x].
Proof.
  intros Hf Hx. induction cs as [|c cs IH]; cbn [app update_first].
  - by rewrite bool_decide_true.
  - cbn [List.find] in Hf. case_bool_decide; [done|]. by rewrite IH.
Qed.

Lemma update_first_others s it items cs :
  List.filter (λ c, negb (bool_decide (tag c = s)))
    (update_first s it items cs)
  = List.filter (λ c, negb (bool_decide (tag c = s))) cs.
Proof.
  induction cs as [|c cs IH]; [done|]. cbn [update_first].
  case_bool_decide as Hc; cbn [List.filter].
  - by rewrite set_items_tag, !bool_decide_true.
  - by rewrite bool_decide_false, IH.
Qed.

(** X3. Writing a section replaces what an earlier write of the same
    section left: two updates of one section amount to the second alone
    (so an update is idempotent); the children of the root with another
    tag stay, in their order; the root keeps its tag, attributes, text
    and tail; and the section then holds exactly the items given. *)
Theorem update_manifest_section_overwrites (root : Element)
  (s it1 it2 : string) (items1 items2 : list string) :
  _update_manifest_section (_update_manifest_section root s it1 items1)
    s it2 items2
  = _update_manifest_section root s it2 items2
  ∧ List.filter (λ c, negb (bool_decide (tag c = s)))
      (children (_update_manifest_section root s it1 items1))
    = List.filter (λ c, negb (bool_decide (tag c = s))) (children root)
  ∧ tag (_update_manifest_section root s it1 items1) = tag root
  ∧ attrib (_update_manifest_section root s it1 items1) = attrib root
  ∧ text (_update_manifest_section root s it1 items1) = text root
  ∧ tail (_update_manifest_section root s it1 items1) = tail root
  ∧ section_items s (_update_manifest_section root s it1 items1)
    = Some (map Some items1).
Proof.
  split; [|split].
  - pose proof (find_update_manifest_section root s it1 items1) as Hf.
    unfold _update_manifest_section at 1. rewrite Hf.
    unfold _update_manifest_section.
    destruct (ET.find s root) as [e|] eqn:He; cbn [tag attrib text tail
      children]; f_equal.
    + apply update_first_update_first.
    + by rewrite update_first_snoc.
  - unfold _update_manifest_section.
    destruct (ET.find s root) as [e|] eqn:He; cbn [children].
    + apply update_first_others.
    + rewrite List.filter_app. cbn [List.filter]. rewrite set_items_tag.
      cbn [ET.new tag]. rewrite bool_decide_true by done. cbn [negb].
      by rewrite app_nil_r.
  - unfold section_items. rewrite find_update_manifest_section.
    cbn [fmap option_fmap option_map].
    rewrite section_items_set_items.
    unfold _update_manifest_section. by destruct (ET.find s root).
Qed.

(** ** The resynchronisation, applied again *)



Lemma sync_entry_name cleaned e : (sync_entry cleaned e).1 = e.1.
Proof.
  destruct e as [nm [[root|d]|es]]; [|done..].
  unfold sync_entry. by destruct (Path.match_xml nm).
Qed.

Lemma child_sync_manifest cleaned nm :
  Path.child nm (_sync_manifest cleaned)
  = (λ n, (sync_entry cleaned (nm, n)).2) <$> Path.child nm cleaned.
Proof.
  destruct cleaned as [c|es]; [done|]. cbn [_sync_manifest].
  pose proof (sync_entry_name (Dir es)) as Hf.
  revert Hf. generalize (sync_entry (Dir es)) as f. intros f Hf.
  unfold Path.child. cbn [Path.entries].
  induction es as [|[nm' n'] es IH]; [done|]. cbn [map List.find].
  rewrite Hf. cbn [fst]. case_bool_decide as Heq; [|apply IH].
  subst nm'. done.
Qed.

Lemma child_sync_manifest_other cleaned nm :
  Path.match_xml nm = false →
  Path.child nm (_sync_manifest cleaned) = Path.child nm cleaned.
Proof.
  intros Hm. rewrite child_sync_manifest.
  destruct (Path.child nm cleaned) as [n|]; [|done].
  cbn [fmap option_fmap option_map]. f_equal.
  unfold sync_entry. destruct n as [[root|d]|es]; [|done..].
  by rewrite Hm.
Qed.

Lemma lookup_below_sync_manifest cleaned c p :
  p ≠ [] →
  Path.lookup (c :: p) (_sync_manifest cleaned) = Path.lookup (c :: p) cleaned.
Proof.
  intros Hp. cbn [Path.lookup]. rewrite child_sync_manifest.
  destruct (Path.child c cleaned) as [n|]; [|done].
  cbn [fmap option_fmap option_map mbind option_bind].
  unfold sync_entry. destruct n as [[root|d]|es]; [|done..].
  destruct (Path.match_xml c); [|done]. cbn [snd].
  by rewrite !lookup_nonempty_file.
Qed.





(** ** What the cleaner removes, and what it never creates *)

Lemma remove_cons c p es :
  p ≠ [] →
  Path.remove (c :: p) (Dir es)
  = Dir (map (λ e, if bool_decide (e.1 = c)
                   then (e.1, Path.remove p e.2) else e) es).
Proof. by destruct p. Qed.

Lemma child_filter_same c es :
  Path.child c (Dir (List.filter (λ e, negb (bool_decide (e.1 = c))) es))
  = None.
Proof.
  unfold Path.child. cbn [Path.entries].
  induction es as [|[nm n] es IH]; [done|]. cbn [List.filter fst].
  case_bool_decide as Hc; cbn [negb]; [done|].
  cbn [List.find fst]. by rewrite bool_decide_false.
Qed.

Lemma lookup_remove_None q p tree :
  Path.lookup q tree = None → Path.lookup q (Path.remove p tree) = None.
Proof.
  revert q tree. induction p as [|c p IH]; intros q tree Hq;
    [by destruct tree|].
  destruct tree as [f|es]; [by destruct p|].
  destruct q as [|c' q]; [done|].
  destruct p as [|c2 p].
  - rewrite remove_one. cbn [Path.lookup] in *.
    destruct (decide (c' = c)) as [->|Hne].
    + by rewrite child_filter_same.
    + by rewrite child_filter_other.
  - rewrite remove_cons by done. cbn [Path.lookup] in *.
    rewrite child_map_named.
    destruct (Path.child c' (Dir es)) as [n|]; [|done].
    cbn [fmap option_fmap option_map mbind option_bind] in *.
    case_bool_decide; [by apply IH|done].
Qed.

Lemma lookup_remove_same p tree :
  p ≠ [] → Path.lookup p (Path.remove p tree) = None.
Proof.
  revert tree. induction p as [|c p IH]; intros tree Hp; [done|].
  destruct tree as [f|es]; [by destruct p|].
  destruct p as [|c2 p].
  - rewrite remove_one. cbn [Path.lookup]. by rewrite child_filter_same.
  - rewrite remove_cons by done. cbn [Path.lookup].
    rewrite child_map_named, bool_decide_true by done.
    destruct (Path.child c (Dir es)) as [n|]; [|done].
    cbn [fmap option_fmap option_map mbind option_bind]. by apply IH.
Qed.

Lemma unlink_if_exists_shrinks p tree tree' :
  p ≠ [] →
  unlink_if_exists p tree = Ok tree' →
  (∀ q, Path.lookup q tree = None → Path.lookup q tree' = None)
  ∧ Path.lookup p tree' = None.
Proof.
  intros Hp. unfold unlink_if_exists.
  destruct (Path.lookup p tree) as [[f|es]|] eqn:Hl; [|done|].
  - intros [= <-]. split; [intros q; apply lookup_remove_None|].
    by apply lookup_remove_same.
  - by intros [= <-].
Qed.

Lemma remove_policy_shrinks out u out' :
  remove_policy out u = Ok out' →
  (∀ q, Path.lookup q out = None → Path.lookup q out' = None)
  ∧ Path.lookup ["policies"; u +:+ ".xml"] out' = None.
Proof.
  unfold remove_policy.
  destruct (_get_resource_url_from_policy_file out _) as [link|e]; [|done].
  cbn [mbind result_bind].
  destruct (unlink_if_exists _ out) as [out1|e] eqn:Hun; [|done].
  cbn [mbind result_bind].
  apply unlink_if_exists_shrinks in Hun as [Hmono Hgone]; [|done].
  assert (∀ p, unlink_if_exists p out1 = Ok out' →
    (∀ q, Path.lookup q out = None → Path.lookup q out' = None)
    ∧ Path.lookup ["policies"; u +:+ ".xml"] out' = None) as Hres.
  { intros p. unfold unlink_if_exists.
    destruct (Path.lookup p out1) as [[f|es]|]; [|done|].
    - intros [= <-]. split; [|by apply lookup_remove_None].
      intros q Hq. by apply lookup_remove_None, Hmono.
    - intros [= <-]. auto. }
  destruct link as [url|]; [|by intros [= <-]].
  case_bool_decide; [by intros [= <-]|].
  destruct (Str.split "://" url) as [|scheme [|filename [|? ?]]]; [done..| |done].
  destruct (res_file scheme filename ≫= Path.resolve out1 []) as [p|];
    [apply Hres|by intros [= <-]].
Qed.

Lemma for_each_remove_policy_shrinks us out out' :
  for_each remove_policy us out = Ok out' →
  (∀ q, Path.lookup q out = None → Path.lookup q out' = None)
  ∧ ∀ u, u ∈ us → Path.lookup ["policies"; u +:+ ".xml"] out' = None.
Proof.
  revert out. induction us as [|u0 us IH]; intros out; cbn [for_each].
  { intros [= <-]. split; [done|]. by intros u ?%elem_of_nil. }
  destruct (remove_policy out u0) as [out1|e] eqn:H1; [|done].
  cbn [mbind result_bind]. intros Hrest.
  apply remove_policy_shrinks in H1 as [Hmono1 Hgone1].
  apply IH in Hrest as [Hmono Hgone].
  split; [intros q Hq; by apply Hmono, Hmono1|].
  intros u [->|Hu]%elem_of_cons; [by apply Hmono|by apply Hgone].
Qed.

Lemma lookup_sync_manifest_None cleaned q :
  Path.lookup q (_sync_manifest cleaned) = None
  ↔ Path.lookup q cleaned = None.
Proof.
  destruct q as [|c [|c' q]]; [done| |by rewrite lookup_below_sync_manifest].
  cbn [Path.lookup]. rewrite child_sync_manifest.
  by destruct (Path.child c cleaned).
Qed.

Lemma lookup_remove_orphaned_steps_None cleaned q :
  Path.lookup q (_remove_orphaned_steps cleaned) = None
  ↔ Path.lookup q cleaned = None.
Proof.
  rewrite !eq_None_not_Some.
  by rewrite (proj1 (lookup_remove_orphaned_steps cleaned q)).
Qed.

Lemma clean_and_save_shrinks (self : ProxyBundle) (out : fsnode) :
  clean_and_save self = Ok out →
  (∀ q, is_Some (Path.lookup q out) →
        is_Some (Path.lookup q (source_dir self)))
  ∧ ∃ us, unattached_policies self = Ok us
          ∧ ∀ u, u ∈ us →
                 Path.lookup ["policies"; u +:+ ".xml"] out = None.
Proof.
  unfold clean_and_save.
  destruct (unattached_policies self) as [us|e]; [|done].
  cbn [mbind result_bind].
  destruct (for_each remove_policy us (source_dir self)) as [t|e] eqn:Hloop;
    [|done].
  cbn [mbind result_bind]. intros [= <-].
  apply for_each_remove_policy_shrinks in Hloop as [Hmono Hgone].
  split.
  - intros q Hq. apply not_eq_None_Some. intros Hnone.
    apply not_eq_None_Some in Hq. apply Hq.
    by apply lookup_sync_manifest_None, lookup_remove_orphaned_steps_None,
      Hmono.
  - exists us. split; [done|]. intros u Hu.
    by apply lookup_sync_manifest_None, lookup_remove_orphaned_steps_None,
      Hgone.
Qed.

(** X5. When [clean_and_save] returns a tree, every path that leads
    somewhere in that tree led somewhere in the source tree (the cleaner
    creates no file and no directory), and for every unattached unit [u]
    nothing is left at [policies/u.xml]. *)
Theorem clean_and_save_only_removes (self : ProxyBundle) (out : fsnode) :
  clean_and_save self = Ok out →
  (∀ q, is_Some (Path.lookup q out) →
        is_Some (Path.lookup q (source_dir self)))
  ∧ ∃ us, unattached_policies self = Ok us
          ∧ ∀ u, u ∈ us →
                 Path.lookup ["policies"; u +:+ ".xml"] out = None.
Proof. apply clean_and_save_shrinks. Qed.

Lemma clean_and_save_only_removes_witness :
  ∃ out, clean_and_save Sample.p1 = Ok out
         ∧ Path.lookup ["policies"; "U3.xml"] out = None
         ∧ Path.lookup ["resources"; "jsc"; "u3.js"] out = None.
Proof.
  assert (∃ out, clean_and_save Sample.p1 = Ok out
                 ∧ Path.lookup ["resources"; "jsc"; "u3.js"] out = None)
    as (out & Hout & Hres).
  { eexists. split; vm_compute; reflexivity. }
  exists out. split; [exact Hout|]. split; [|exact Hres].
  destruct (clean_and_save_only_removes Sample.p1 out Hout)
    as (_ & us & Hus & Hgone).
  apply (Hgone "U3").
  assert (us = ["U2"; "U3"]) as ->.
  { assert (unattached_policies Sample.p1 = Ok ["U2"; "U3"]) as H0
      by (vm_compute; reflexivity).
    rewrite H0 in Hus. by injection Hus. }
  right. left.
Defined.

(** ** The manifests after cleaning *)

Lemma append_cons c s t : String c s +:+ t = String c (s +:+ t).
Proof. reflexivity. Qed.






Lemma clean_and_save_passes self out :
  clean_and_save self = Ok out →
  ∃ tree, out = _sync_manifest (_remove_orphaned_steps tree).
Proof.
  unfold clean_and_save.
  destruct (unattached_policies self) as [us|e]; [|done].
  cbn [mbind result_bind].
  destruct (for_each remove_policy us (source_dir self)) as [t|e]; [|done].
  cbn [mbind result_bind]. intros [= <-]. by exists t.
Qed.

Lemma remaining_policies_sync_manifest cleaned :
  remaining_policies (_sync_manifest cleaned) = remaining_policies cleaned.
Proof. unfold remaining_policies. by rewrite child_sync_manifest_other. Qed.




(** ** No dangling step in the tree the cleaner returns *)

Lemma xml_docs_sync_manifest cleaned root' :
  root' ∈ xml_docs (_sync_manifest cleaned) →
  root' ∈ xml_docs cleaned
  ∨ ∃ root, root ∈ xml_docs cleaned ∧ root' = sync_root cleaned root.
Proof.
  destruct cleaned as [c|es]; [by intros ?%elem_of_nil|].
  cbn [_sync_manifest]. generalize (Dir es) at 1 4 as tree. intros tree.
  induction es as [|[nm n] es IH]; [by intros ?%elem_of_nil|].
  cbn [map].
  assert (sync_entry tree (nm, n) = (nm, n)
          ∨ ∃ root, n = File (Doc root) ∧ Path.match_xml nm = true
                    ∧ sync_entry tree (nm, n)
                      = (nm, File (Doc (sync_root tree root)))) as Hcase.
  { unfold sync_entry. destruct n as [[root|d]|es']; [|by left..].
    destruct (Path.match_xml nm) eqn:Hm; [|by left]. right. by exists root. }
  destruct Hcase as [->|(root & -> & Hm & ->)];
    rewrite !xml_docs_cons, !elem_of_app.
  - intros [Hhere|Hrest]; [by left; left|].
    destruct (IH Hrest) as [?|(root & ? & ?)]; [by left; right|].
    right. exists root. rewrite elem_of_app. auto.
  - rewrite Hm. intros [->%list_elem_of_singleton|Hrest].
    + right. exists root. rewrite elem_of_app. split; [left; left|done].
    + destruct (IH Hrest) as [?|(root0 & ? & ?)]; [by left; right|].
      right. exists root0. rewrite elem_of_app. auto.
Qed.

Lemma elem_of_update_first s it items cs c' :
  c' ∈ update_first s it items cs →
  c' ∈ cs ∨ ∃ c, c ∈ cs ∧ tag c = s ∧ c' = set_items it items c.
Proof.
  induction cs as [|c cs IH]; [by intros ?%elem_of_nil|].
  cbn [update_first]. case_bool_decide.
  - intros [->|?]%elem_of_cons; [|by left; right].
    right. exists c. split; [left|done].
  - intros [->|Hin]%elem_of_cons; [by left; left|].
    destruct (IH Hin) as [?|(c0 & ? & ?)]; [by left; right|].
    right. exists c0. split; [by right|done].
Qed.

Lemma descendants_set_items it items elem d :
  d = set_items it items elem ∨ d ∈ ET.descendants (set_items it items elem) →
  tag d = tag elem ∨ tag d = it.
Proof.
  intros [->|Hd]; [by left|]. right.
  apply elem_of_descendants in Hd as (c & Hc & Hd). cbn [set_items children] in Hc.
  apply list_elem_of_fmap in Hc as (t & -> & _).
  destruct Hd as [->|Hd]; [done|].
  apply elem_of_descendants in Hd as (c' & Hc' & _). cbn in Hc'.
  by apply elem_of_nil in Hc'.
Qed.

Lemma descendants_update_manifest_section root s it items d :
  d ∈ ET.descendants (_update_manifest_section root s it items) →
  d ∈ ET.descendants root ∨ tag d = s ∨ tag d = it.
Proof.
  intros (c' & Hc' & Hd)%elem_of_descendants.
  assert (c' ∈ children root
          ∨ ∃ e, tag e = s ∧ c' = set_items it items e) as [Hc|(e & He & ->)].
  { revert Hc'. unfold _update_manifest_section.
    destruct (ET.find s root) as [e0|] eqn:Hf; cbn [children].
    - intros [?|(c & Hc & Ht & ->)]%elem_of_update_first; [by left|].
      right. by exists c.
    - intros [?|Hnew]%elem_of_app; [by left|].
      apply list_elem_of_singleton in Hnew as ->.
      right. by exists (ET.new s). }
  - left. apply elem_of_descendants. eauto.
  - right. rewrite <- He. exact (descendants_set_items it items e d Hd).
Qed.

Lemma steps_of_sync_root cleaned root d :
  d ∈ ET.descendants (sync_root cleaned root) → tag d = "Step" →
  d ∈ ET.descendants root.
Proof.
  unfold sync_root. intros Hd Ht.
  apply descendants_update_manifest_section in Hd as [Hd|[?|?]];
    [|congruence..].
  apply descendants_update_manifest_section in Hd as [Hd|[?|?]];
    [done|congruence..].
Qed.

Lemma strip_tree_no_dangling remaining tree root :
  root ∈ xml_docs (strip_tree remaining tree) →
  no_dangling remaining (ET.descendants root).
Proof.
  rewrite xml_docs_strip_tree.
  intros (root0 & -> & _)%list_elem_of_fmap step t Hstep Htag Ht.
  apply descendants_strip_orphans in Hstep as (d & _ & -> & Hkeep).
  rewrite strip_orphans_tag in Htag.
  rewrite step_name_text_strip_orphans in Ht.
  unfold removed, is_orphan in Hkeep. rewrite Htag, Ht in Hkeep.
  simpl in Hkeep. apply bool_decide_eq_false in Hkeep.
  by apply dec_stable.
Qed.

(** X7. The tree [clean_and_save] returns has no dangling reference below
    the root of any of its documents, the rewritten manifests included:
    every [Step] element below the root of a document that has a name
    (a [Name] child with a text that is not empty) names, after trimming,
    a unit whose file is in the unit directory of that tree. *)
Theorem clean_and_save_no_dangling (self : ProxyBundle) (out : fsnode)
  (root step : Element) (t : string) :
  clean_and_save self = Ok out →
  root ∈ xml_docs out →
  step ∈ ET.descendants root →
  tag step = "Step" →
  step_name_text step = Some t →
  Str.strip t ∈ remaining_policies out.
Proof.
  intros Hclean Hroot Hstep Htag Ht.
  destruct (clean_and_save_passes self out Hclean) as [tree ->].
  rewrite remaining_policies_sync_manifest.
  unfold _remove_orphaned_steps in *.
  rewrite remaining_policies_strip_tree.
  apply xml_docs_sync_manifest in Hroot as [Hroot|(root0 & Hroot & ->)].
  - by apply (strip_tree_no_dangling _ _ _ Hroot step t).
  - apply steps_of_sync_root in Hstep; [|done].
    by apply (strip_tree_no_dangling _ _ _ Hroot step t).
Qed.

Lemma clean_and_save_no_dangling_witness :
  ∃ out, clean_and_save Sample.ghost = Ok out
         ∧ "A" ∈ remaining_policies out.
Proof.
  assert (∃ out, clean_and_save Sample.ghost = Ok out
                 ∧ Sample.el "ProxyEndpoint"
                     [Sample.el "PreFlow"
                        [Sample.el "Request" [Sample.step "A"]]]
                   ∈ xml_docs out) as (out & Hout & Hdoc).
  { eexists. split; [vm_compute; reflexivity|]. vm_compute.
    do 2 right. left. }
  exists out. split; [exact Hout|].
  apply (clean_and_save_no_dangling Sample.ghost out _ (Sample.step "A") "A"
           Hout Hdoc).
  - vm_compute. do 2 right. left.
  - reflexivity.
  - reflexivity.
Defined.

(** ** What the Sequence Detector reports *)








(** ** A bundle none of whose endpoint documents parses *)



(** ** The command line *)

Lemma split_colon_spec arg rule_name variant :
  split_colon arg = Some (rule_name, variant)
  ↔ arg = rule_name +:+ ":" +:+ variant ∧ split_colon rule_name = None.
Proof.
  revert rule_name. induction arg as [|c arg IH]; intros rule_name.
  - split; [done|]. intros [Heq _]. by destruct rule_name.
  - cbn [split_colon]. case_bool_decide as Hc.
    + subst c. split.
      * by intros [= <- <-].
      * intros [Heq Hr]. destruct rule_name as [|c r].
        -- by injection Heq as ->.
        -- rewrite append_cons in Heq. injection Heq as <- _.
           cbn [split_colon] in Hr. by rewrite bool_decide_true in Hr.
    + split.
      * destruct (split_colon arg) as [[r v]|] eqn:Hs; [|done].
        intros [= <- <-]. destruct (proj1 (IH r) eq_refl) as [-> Hr].
        split; [done|].
        cbn [split_colon]. by rewrite bool_decide_false, Hr.
      * intros [Heq Hr]. destruct rule_name as [|c' r].
        { injection Heq as -> _. done. }
        rewrite append_cons in Heq. injection Heq as <- Heq.
        cbn [split_colon] in Hr. rewrite bool_decide_false in Hr by done.
        destruct (split_colon r) as [[? ?]|] eqn:Hsr; [done|].
        by rewrite (proj2 (IH r) (conj Heq Hsr)).
Qed.

Lemma dict_get_elem_of {V} k (v : V) d :
  Dict.get k d = Some v → (k, v) ∈ d.
Proof.
  unfold Dict.get. destruct (List.find _ d) as [[k' v']|] eqn:Hf; [|done].
  apply find_some in Hf as [Hin Hk]. apply bool_decide_eq_true in Hk.
  cbn in *. intros [= <-]. subst k'. by apply list_elem_of_In.
Qed.

Lemma dict_get_available rule_name variants :
  Dict.get rule_name AVAILABLE_RULES = Some variants
  ↔ (rule_name, variants) ∈ AVAILABLE_RULES.
Proof.
  split; [apply dict_get_elem_of|].
  intros [[= -> ->]|[[= -> ->]|[]%elem_of_nil]%elem_of_cons]%elem_of_cons;
    reflexivity.
Qed.

Lemma dict_get_set {V} r k (v : V) d :
  Dict.get r (Dict.set k v d)
  = if bool_decide (r = k) then Some v else Dict.get r d.
Proof.
  unfold Dict.get. destruct (decide (r = k)) as [->|Hrk].
  - rewrite bool_decide_true by done.
    induction d as [|[k' v'] d IH]; cbn [Dict.set List.find fst].
    + by rewrite bool_decide_true.
    + case_bool_decide as Hk'; cbn [List.find fst].
      * by rewrite bool_decide_true.
      * by rewrite bool_decide_false.
  - rewrite bool_decide_false by done.
    induction d as [|[k' v'] d IH]; cbn [Dict.set List.find fst].
    + by rewrite bool_decide_false.
    + case_bool_decide as Hk'; cbn [List.find fst].
      * subst k'. by rewrite !bool_decide_false by done.
      * case_bool_decide; [done|apply IH].
Qed.

Lemma dict_set_keys {V} k (v : V) d :
  map fst (Dict.set k v d)
  = if bool_decide (k ∈ map fst d) then map fst d else map fst d ++ [k].
Proof.
  induction d as [|[k' v'] d IH]; cbn [Dict.set map fst app].
  - rewrite bool_decide_false; [done|]. by intros ?%elem_of_nil.
  - destruct (decide (k' = k)) as [->|Hk].
    + rewrite (bool_decide_true (k = k)) by done.
      rewrite bool_decide_true; [done|]. left.
    + rewrite (bool_decide_false (k' = k)) by done. cbn [map fst].
      rewrite IH. destruct (decide (k ∈ map fst d)) as [Hin|Hin].
      * rewrite !bool_decide_true; [done|by right|done].
      * rewrite !bool_decide_false; [done| |done].
        intros [?|?]%elem_of_cons; congruence.
Qed.

Lemma dict_set_elem_of {V} k (v : V) d x :
  x ∈ Dict.set k v d → x = (k, v) ∨ x ∈ d.
Proof.
  induction d as [|kv d IH]; cbn [Dict.set].
  - intros ->%list_elem_of_singleton. by left.
  - case_bool_decide.
    + intros [->|?]%elem_of_cons; [by left|]. right. by right.
    + intros [->|Hin]%elem_of_cons; [right; left|].
      destruct (IH Hin) as [?|?]; [by left|]. right. by right.
Qed.

Lemma dict_set_NoDup {V} k (v : V) d :
  NoDup (map fst d) → NoDup (map fst (Dict.set k v d)).
Proof.
  intros Hnd. rewrite dict_set_keys. case_bool_decide as Hin; [done|].
  apply NoDup_app. split; [done|]. split; [|apply NoDup_singleton].
  intros x Hx ->%list_elem_of_singleton. done.
Qed.

(** A pair of a rule and one of its variants. *)
Lemma accepted_arg_check arg :
  accepted_arg arg
  ↔ ∃ r v vs, split_colon arg = Some (r, v)
              ∧ Dict.get r AVAILABLE_RULES = Some vs ∧ v ∈ vs.
Proof.
  unfold accepted_arg. split.
  - intros (r & v & vs & Harg & Hr & Hav & Hv). exists r, v, vs.
    split; [by apply split_colon_spec|]. split; [|done].
    by apply dict_get_available.
  - intros (r & v & vs & Hs & Hav & Hv). exists r, v, vs.
    apply split_colon_spec in Hs as [-> Hr]. split; [done|]. split; [done|].
    split; [|done]. by apply dict_get_available.
Qed.

Lemma parse_rule_loop_cons parsed arg rest :
  parse_rule_loop parsed (arg :: rest)
  = match split_colon arg with
    | None => inl (InvalidFormat arg)
    | Some (rule_name, variant) =>
        match Dict.get rule_name AVAILABLE_RULES with
        | None => inl (UnknownRule rule_name)
        | Some variants =>
            if bool_decide (variant ∈ variants)
            then parse_rule_loop (Dict.set rule_name variant parsed) rest
            else inl (UnsupportedVariant variant rule_name)
        end
    end.
Proof. reflexivity. Qed.

Lemma parse_rule_loop_valid parsed args rules :
  parse_rule_loop parsed args = inr rules →
  valid_rules parsed → valid_rules rules.
Proof.
  revert parsed. induction args as [|arg rest IH]; intros parsed.
  { by intros [= <-]. }
  rewrite parse_rule_loop_cons.
  destruct (split_colon arg) as [[r v]|]; [|done].
  destruct (Dict.get r AVAILABLE_RULES) as [vs|] eqn:Hav; [|done].
  case_bool_decide as Hv; [|done].
  intros Hrest [Hnd Hall]. apply (IH _ Hrest). split.
  - by apply dict_set_NoDup.
  - intros r' v' [[= -> ->]|Hin]%dict_set_elem_of; [|by apply Hall].
    exists vs. split; [by apply dict_get_available|done].
Qed.

Lemma parse_rule_loop_accepts parsed args :
  (∃ rules, parse_rule_loop parsed args = inr rules)
  ↔ Forall accepted_arg args.
Proof.
  revert parsed. induction args as [|arg rest IH]; intros parsed.
  { split; [constructor|]. intros _. by exists parsed. }
  rewrite parse_rule_loop_cons, Forall_cons, accepted_arg_check. split.
  - intros [rules Hrun].
    destruct (split_colon arg) as [[r v]|]; [|done].
    destruct (Dict.get r AVAILABLE_RULES) as [vs|] eqn:Hav; [|done].
    case_bool_decide as Hv; [|done].
    split; [by exists r, v, vs|]. apply (IH (Dict.set r v parsed)). eauto.
  - intros [(r & v & vs & -> & -> & Hv) Hrest].
    rewrite bool_decide_true by done. by apply IH.
Qed.

Lemma parse_rule_loop_get parsed args rules r :
  parse_rule_loop parsed args = inr rules →
  Dict.get r rules
  = match last (omap (variant_for r) args) with
    | Some v => Some v
    | None => Dict.get r parsed
    end.
Proof.
  revert parsed. induction args as [|arg rest IH]; intros parsed.
  { by intros [= <-]. }
  rewrite parse_rule_loop_cons. unfold omap. cbn [list_omap].
  unfold variant_for at 1.
  destruct (split_colon arg) as [[r' v]|]; [|done].
  destruct (Dict.get r' AVAILABLE_RULES) as [vs|]; [|done].
  case_bool_decide as Hv; [|done].
  intros Hrest. rewrite (IH _ Hrest), dict_get_set.
  destruct (decide (r' = r)) as [->|Hne].
  - rewrite !bool_decide_true by done. rewrite last_cons.
    by destruct (last _).
  - rewrite (bool_decide_false (r' = r)) by done.
    by rewrite (bool_decide_false (r = r')) by done.
Qed.

(** X10. [parse_rule_arguments] returns a dictionary exactly when every
    argument is [rule:variant] for an available rule and one of its
    variants, the rule being the text before the first colon; the
    dictionary it then returns has each rule at most once, with a variant
    the rule supports, and so at most two entries. *)
Theorem parse_rule_arguments_accepts (rule_args : list string) :
  ((∃ rules, parse_rule_arguments rule_args = inr rules)
   ↔ Forall accepted_arg rule_args)
  ∧ ∀ rules, parse_rule_arguments rule_args = inr rules →
             valid_rules rules ∧ length rules ≤ 2.
Proof.
  split; [apply parse_rule_loop_accepts|]. intros rules Hrun.
  assert (valid_rules rules) as Hvalid.
  { apply (parse_rule_loop_valid [] rule_args rules Hrun).
    split; [constructor|]. by intros r v ?%elem_of_nil. }
  split; [done|]. destruct Hvalid as [Hnd Hall].
  rewrite <- (length_map fst rules).
  change 2 with (length (map fst AVAILABLE_RULES)).
  apply submseteq_length, NoDup_submseteq; [done|].
  intros r ([r' v] & -> & Hin)%list_elem_of_fmap.
  destruct (Hall r' v Hin) as (vs & Hav & _).
  by apply (list_elem_of_fmap_2 fst _ (r', vs)).
Qed.

(** X11. In the dictionary [parse_rule_arguments] returns, the variant of
    a rule is the one given by the last argument for that rule; a rule no
    argument names is not in the dictionary. *)
Theorem parse_rule_arguments_last_wins (rule_args : list string)
  (rules : list (string * string)) (rule_name : string) :
  parse_rule_arguments rule_args = inr rules →
  Dict.get rule_name rules = last (omap (variant_for rule_name) rule_args).
Proof.
  intros Hrun. rewrite (parse_rule_loop_get [] rule_args rules _ Hrun).
  by destruct (last _).
Qed.

Lemma parse_rule_arguments_last_wins_witness :
  parse_rule_arguments
    ["unattached-policy:report-only"; "sequential-js:report-only";
     "unattached-policy:apply-and-report"]
  = inr [("unattached-policy", "apply-and-report");
         ("sequential-js", "report-only")]
  ∧ Dict.get "unattached-policy"
      [("unattached-policy", "apply-and-report");
       ("sequential-js", "report-only")]
    = Some "apply-and-report".
Proof.
  assert (parse_rule_arguments
            ["unattached-policy:report-only"; "sequential-js:report-only";
             "unattached-policy:apply-and-report"]
          = inr [("unattached-policy", "apply-and-report");
                 ("sequential-js", "report-only")]) as Hrun
    by (vm_compute; reflexivity).
  split; [exact Hrun|].
  rewrite (parse_rule_arguments_last_wins _ _ "unattached-policy" Hrun).
  reflexivity.
Defined.

Lemma parse_rule_arguments_accepts_witness :
  ∃ rules, parse_rule_arguments ["sequential-js:report-only"] = inr rules
           ∧ valid_rules rules.
Proof.
  assert (∃ rules, parse_rule_arguments ["sequential-js:report-only"]
                   = inr rules) as [rules Hrun].
  { eexists. vm_compute. reflexivity. }
  exists rules. split; [exact Hrun|].
  exact (proj1 (proj2 (parse_rule_arguments_accepts _) rules Hrun)).
Defined.

(** ** The report of the unattached units *)




(** ** The report of the sequences *)

Lemma foldl_sequence_lines seqs lines n :
  foldl (λ s seq_info, (s.1 ++ sequence_lines seq_info, S s.2))
    (lines, n) seqs
  = (lines ++ flat_map sequence_lines seqs, n + length seqs).
Proof.
  revert lines n. induction seqs as [|seq seqs IH]; intros lines n;
    cbn [foldl flat_map length].
  - by rewrite app_nil_r, Nat.add_0_r.
  - cbn [fst snd]. rewrite IH, <- app_assoc. f_equal. lia.
Qed.

Lemma report_proxy_count st item :
  (report_proxy st item).2 = st.2 + length item.2
  ∧ length (report_proxy st item).1
    = length st.1
      + (if bool_decide (item.2 = []) then 0 else 2 + 2 * length item.2)
  ∧ ∃ more, (report_proxy st item).1 = st.1 ++ more
            ∧ (item.2 ≠ [] →
               ∃ rest, more = ("--- Found sequential JS steps in proxy: "
                               +:+ item.1 +:+ " ---") :: rest).
Proof.
  destruct st as [lines n], item as [proxy_name seqs]. unfold report_proxy.
  cbn [fst snd]. destruct seqs as [|seq seqs].
  { cbn [length fst snd]. rewrite bool_decide_true by done.
    split; [lia|]. split; [lia|]. exists []. by rewrite app_nil_r. }
  rewrite foldl_sequence_lines. cbn [fst snd].
  rewrite bool_decide_false by done.
  split; [done|]. split.
  - rewrite !length_app, flat_map_constant_length with (c := 2); [|done].
    cbn [length]. lia.
  - eexists. rewrite <- !app_assoc. split; [done|]. intros _.
    cbn [app]. by eexists.
Qed.

Lemma foldl_report_proxy_count items st :
  (foldl report_proxy st items).2
  = st.2 + sum_list_with (λ item, length item.2) items
  ∧ length (foldl report_proxy st items).1
    = length st.1
      + sum_list_with (λ item, if bool_decide (item.2 = []) then 0
                                else 2 + 2 * length item.2) items
  ∧ ∃ more, (foldl report_proxy st items).1 = st.1 ++ more
            ∧ (sum_list_with (λ item, length item.2) items ≠ 0 →
               ∃ proxy_name rest,
                 more = ("--- Found sequential JS steps in proxy: "
                         +:+ proxy_name +:+ " ---") :: rest).
Proof.
  revert st. induction items as [|item items IH]; intros st.
  { simpl. split; [lia|]. split; [lia|]. exists []. rewrite app_nil_r.
    split; [done|]. lia. }
  cbn [foldl]. change (sum_list_with ?f (item :: items))
    with (f item + sum_list_with f items).
  destruct (IH (report_proxy st item)) as (Hn & Hlen & more & Hmore & Hhead).
  destruct (report_proxy_count st item)
    as (Hn1 & Hlen1 & more1 & Hmore1 & Hhead1).
  rewrite Hn, Hlen, Hn1, Hlen1, Hmore, Hmore1.
  split; [lia|]. split; [lia|].
  exists (more1 ++ more). split; [by rewrite app_assoc|]. intros Hpos.
  destruct (decide (item.2 = [])) as [Hempty|Hne].
  - assert (more1 = []) as ->.
    { apply (f_equal length) in Hmore1. rewrite Hlen1, length_app in Hmore1.
      rewrite bool_decide_true in Hmore1 by done.
      apply nil_length_inv. lia. }
    cbn [app]. apply Hhead. rewrite Hempty in Hpos.
    cbn [length] in Hpos. lia.
  - destruct (Hhead1 Hne) as [rest ->]. cbn [app]. eauto.
Qed.

Lemma sorted_items_Permutation m : sorted_items m ≡ₚ map_to_list m.
Proof. apply merge_sort_Permutation. Qed.

Lemma sum_lengths_zero (items : list (string * list Sequence)) :
  sum_list_with (λ item, length item.2) items = 0
  ↔ ∀ item, item ∈ items → item.2 = [].
Proof.
  induction items as [|item items IH].
  - split; [|done]. by intros _ item ?%elem_of_nil.
  - change (sum_list_with ?f (item :: items))
      with (f item + sum_list_with f items). split.
    + intros Hsum item' [->|Hin]%elem_of_cons.
      * apply nil_length_inv. lia.
      * apply IH; [lia|done].
    + intros Hall. rewrite (Hall item) by left. cbn [length].
      apply IH. intros item' Hin. apply Hall. by right.
Qed.

Lemma foldl_report_proxy_nothing items st :
  (∀ item, item ∈ items → item.2 = []) → foldl report_proxy st items = st.
Proof.
  induction items as [|item items IH]; intros Hall; [done|].
  cbn [foldl]. unfold report_proxy at 2. rewrite (Hall item) by left.
  apply IH. intros item' Hin. apply Hall. by right.
Qed.

Lemma sequential_js_report_lines_count
  (results_by_proxy : gmap string (list Sequence)) :
  (sequential_js_report_lines results_by_proxy).2
  = sum_list_with (λ item, length item.2) (map_to_list results_by_proxy)
  ∧ (generate_sequential_js_report results_by_proxy = NO_SEQUENCES
     ↔ ∀ proxy_name sequences,
         results_by_proxy !! proxy_name = Some sequences → sequences = [])
  ∧ length (sequential_js_report_lines results_by_proxy).1
    = (if bool_decide
            ((sequential_js_report_lines results_by_proxy).2 = 0)
       then 1 else 0)
      + sum_list_with (λ item, if bool_decide (item.2 = []) then 0
                                else 2 + 2 * length item.2)
          (map_to_list results_by_proxy).
Proof.
  unfold generate_sequential_js_report, sequential_js_report_lines.
  destruct (foldl_report_proxy_count (sorted_items results_by_proxy) ([], 0))
    as (Hn & Hlen & more & Hmore & Hhead).
  cbn [fst snd length app] in Hn, Hlen, Hmore.
  assert (∀ f : string * list Sequence → nat,
            sum_list_with f (sorted_items results_by_proxy)
            = sum_list_with f (map_to_list results_by_proxy)) as Hperm.
  { intros f. by rewrite (sorted_items_Permutation results_by_proxy). }
  rewrite Hperm in Hn, Hlen, Hhead. rewrite Nat.add_0_l in Hn, Hlen.
  assert ((∀ proxy_name sequences,
             results_by_proxy !! proxy_name = Some sequences →
             sequences = [])
          ↔ sum_list_with (λ item, length item.2)
              (map_to_list results_by_proxy) = 0) as Hzero.
  { rewrite sum_lengths_zero. split.
    - intros Hall [k seqs] Hin%elem_of_map_to_list. by apply (Hall k).
    - intros Hall k seqs Hk. by apply (Hall (k, seqs)), elem_of_map_to_list. }
  split; [|split].
  - case_bool_decide; cbn [snd]; exact Hn.
  - rewrite Hzero, <- Hn. case_bool_decide as Hc; cbn [fst].
    + split; [done|]. intros _.
      rewrite foldl_report_proxy_nothing; [done|].
      apply sum_lengths_zero. by rewrite Hperm, <- Hn.
    + split; [|done]. intros Hjoin. exfalso.
      destruct Hhead as (proxy_name & rest & ->); [by rewrite <- Hn|].
      rewrite Hmore in Hjoin. destruct rest; discriminate Hjoin.
  - case_bool_decide as Hc; cbn [fst snd] in *.
    + rewrite bool_decide_true by done.
      rewrite length_app, Hlen. cbn [length]. lia.
    + rewrite bool_decide_false by done. rewrite Hlen. lia.
Qed.


(** ** The results [main] collects for the report *)

Lemma collect_sequential_js_cases m p :
  (∃ sequences, find_sequential_js_steps p = Ok sequences ∧ sequences ≠ []
     ∧ collect_sequential_js m p = <[name p := sequences]> m)
  ∨ ((find_sequential_js_steps p = Ok []
      ∨ ∃ e, find_sequential_js_steps p = Raise e)
     ∧ collect_sequential_js m p = m).
Proof.
  unfold collect_sequential_js, run_sequential_js_rule.
  destruct (find_sequential_js_steps p) as [[|seq seqs]|e];
    cbn [mbind result_bind].
  - right. split; [by left|done].
  - left. by exists (seq :: seqs).
  - right. split; [right; by exists e|done].
Qed.

Lemma foldl_collect_lookup ps m n sequences :
  foldl collect_sequential_js m ps !! n = Some sequences →
  m !! n = Some sequences
  ∨ (sequences ≠ []
     ∧ ∃ p, p ∈ ps ∧ name p = n
            ∧ find_sequential_js_steps p = Ok sequences).
Proof.
  revert m. induction ps as [|p ps IH]; intros m; cbn [foldl]; [by left|].
  intros [Hm|(Hne & q & Hq & Hname & Hfind)]%IH.
  - destruct (collect_sequential_js_cases m p)
      as [(seqs & Hfind & Hne & Hc)|[_ Hc]]; rewrite Hc in Hm; [|by left].
    destruct (decide (name p = n)) as [<-|Hn].
    + rewrite lookup_insert_eq in Hm. injection Hm as <-.
      right. split; [done|]. exists p. split; [left|done].
    + rewrite lookup_insert_ne in Hm by done. by left.
  - right. split; [done|]. exists q. split; [by right|done].
Qed.

Lemma foldl_collect_keeps ps m n sequences :
  m !! n = Some sequences → sequences ≠ [] →
  ∃ sequences', foldl collect_sequential_js m ps !! n = Some sequences'
                ∧ sequences' ≠ [].
Proof.
  revert m sequences. induction ps as [|p ps IH]; intros m sequences Hm Hne;
    cbn [foldl]; [by exists sequences|].
  destruct (collect_sequential_js_cases m p)
    as [(seqs & Hfind & Hne' & Hc)|[_ Hc]]; rewrite Hc; [|by eapply IH].
  destruct (decide (name p = n)) as [<-|Hn].
  - apply (IH _ seqs); [by rewrite lookup_insert_eq|done].
  - apply (IH _ sequences); [by rewrite lookup_insert_ne|done].
Qed.

Lemma foldl_collect_quiet ps m :
  (∀ p, p ∈ ps → find_sequential_js_steps p = Ok []
                 ∨ ∃ e, find_sequential_js_steps p = Raise e) →
  foldl collect_sequential_js m ps = m.
Proof.
  induction ps as [|p ps IH]; intros Hall; cbn [foldl]; [done|].
  destruct (collect_sequential_js_cases m p)
    as [(seqs & Hfind & Hne & _)|[_ ->]].
  - destruct (Hall p) as [Hq|[e Hq]]; [left|..]; congruence.
  - apply IH. intros q Hq. apply Hall. by right.
Qed.

Lemma foldl_collect_reports ps m p sequences :
  p ∈ ps → find_sequential_js_steps p = Ok sequences → sequences ≠ [] →
  ∃ sequences', foldl collect_sequential_js m ps !! name p = Some sequences'
                ∧ sequences' ≠ [].
Proof.
  revert m. induction ps as [|q ps IH]; intros m Hin Hfind Hne;
    [by apply elem_of_nil in Hin|].
  cbn [foldl]. apply elem_of_cons in Hin as [<-|Hin]; [|by apply IH].
  destruct (collect_sequential_js_cases m p)
    as [(seqs & Hfind' & Hne' & ->)|[[Hq|[e Hq]] _]]; [|congruence..].
  apply (foldl_collect_keeps ps _ _ seqs); [by rewrite lookup_insert_eq|done].
Qed.

(** X15. In the results [main] collects for the rule [sequential-js],
    every entry is the non-empty list of sequences found in a proxy of
    that name; and the report written from them is the sentence [No
    sequential, condition-less JavaScript steps found across all
    proxies.] exactly when, for every proxy, the search found nothing or
    raised an exception: a proxy that could not be read is reported like
    a proxy without sequences. *)
Theorem main_sequential_js_report (proxy_objects : list ProxyBundle) :
  (∀ proxy_name sequences,
     sequential_js_results proxy_objects !! proxy_name = Some sequences →
     sequences ≠ []
     ∧ ∃ proxy, proxy ∈ proxy_objects ∧ name proxy = proxy_name
                ∧ find_sequential_js_steps proxy = Ok sequences)
  ∧ (generate_sequential_js_report (sequential_js_results proxy_objects)
     = NO_SEQUENCES
     ↔ ∀ proxy, proxy ∈ proxy_objects →
                find_sequential_js_steps proxy = Ok []
                ∨ ∃ e, find_sequential_js_steps proxy = Raise e).
Proof.
  assert (∀ proxy_name sequences,
     sequential_js_results proxy_objects !! proxy_name = Some sequences →
     sequences ≠ []
     ∧ ∃ proxy, proxy ∈ proxy_objects ∧ name proxy = proxy_name
                ∧ find_sequential_js_steps proxy = Ok sequences) as Hentries.
  { intros n seqs [Hempty|H]%foldl_collect_lookup; [|done].
    by rewrite lookup_empty in Hempty. }
  split; [done|].
  destruct (sequential_js_report_lines_count
              (sequential_js_results proxy_objects)) as (_ & -> & _).
  split.
  - intros Hall p Hin.
    destruct (find_sequential_js_steps p) as [[|seq seqs]|e] eqn:Hfind;
      [by left|..|right; by exists e].
    destruct (foldl_collect_reports proxy_objects ∅ p (seq :: seqs))
      as (seqs' & Hlook & Hne); [done..|].
    by apply Hall in Hlook.
  - intros Hquiet n seqs Hlook. unfold sequential_js_results in Hlook.
    rewrite foldl_collect_quiet in Hlook by done.
    by rewrite lookup_empty in Hlook.
Qed.


(** ** The name of a bundle *)

Example bundle_name_revision :
  bundle_name "my-proxy_rev12_2024_01_31" = Some "my-proxy".
Proof. reflexivity. Qed.

Example bundle_name_last_revision :
  bundle_name "a_rev1_2020_01_01_rev2_2021_02_02" = Some "a_rev1_2020_01_01".
Proof. reflexivity. Qed.

Example bundle_name_final_line_feed :
  bundle_name ("x_rev1_2020_01_01" +:+ NEWLINE) = Some "x".
Proof. reflexivity. Qed.

Example bundle_name_inner_line_feed :
  bundle_name ("a" +:+ NEWLINE +:+ "b") = None.
Proof. reflexivity. Qed.

Lemma length_append s t :
  String.length (s +:+ t) = String.length s + String.length t.
Proof.
  induction s as [|c s IH]; [done|].
  rewrite append_cons. cbn [String.length]. by rewrite IH.
Qed.

Lemma append_nil_l s : "" +:+ s = s.
Proof. reflexivity. Qed.

Lemma at_end_length s : at_end s = true → String.length s ≤ 1.
Proof.
  unfold at_end. intros [H|H]%orb_true_iff; apply bool_decide_eq_true in H;
    subst s; cbn; lia.
Qed.

Lemma date_tail_length s : date_tail s = true → String.length s ≤ 12.
Proof.
  unfold date_tail.
  destruct s as [|? [|? [|? [|? [|? [|? [|? [|? [|? [|? [|? rest]]]]]]]]]]];
    try done.
  intros [_ Hend%at_end_length]%andb_true_iff. cbn [String.length]. lia.
Qed.

(** The run of digits that is dropped ends at the latest where a
    character that is no digit stands. *)
Lemma drop_digits_length s c t :
  is_digit c = false →
  String.length (String c t) ≤ String.length (drop_digits (s +:+ String c t)).
Proof.
  intros Hc. induction s as [|a s IH].
  - rewrite append_nil_l. cbn [drop_digits]. by rewrite Hc.
  - rewrite append_cons. cbn [drop_digits]. destruct (is_digit a); [done|].
    cbn [String.length] in *. rewrite length_append. cbn [String.length]. lia.
Qed.

Lemma drop_digits_all s c t :
  all_digits s = true → is_digit c = false →
  drop_digits (s +:+ String c t) = String c t.
Proof.
  intros Hs Hc. induction s as [|a s IH].
  - rewrite append_nil_l. cbn [drop_digits]. by rewrite Hc.
  - rewrite append_cons. cbn [drop_digits all_digits] in *.
    apply andb_true_iff in Hs as [-> Hs]. by apply IH.
Qed.

Lemma revision_length n y1 y2 y3 y4 m1 m2 d1 d2 :
  String.length (revision n y1 y2 y3 y4 m1 m2 d1 d2)
  = 15 + String.length n.
Proof.
  unfold revision. rewrite !length_append. cbn [String.length]. lia.
Qed.

Lemma rev_suffix_revision n y1 y2 y3 y4 m1 m2 d1 d2 :
  revision_digits n y1 y2 y3 y4 m1 m2 d1 d2 →
  rev_suffix (revision n y1 y2 y3 y4 m1 m2 d1 d2) = true.
Proof.
  intros (Hn & Hdig & Hdate). unfold revision.
  destruct n as [|c n]; [done|].
  cbn [all_digits] in Hdig. apply andb_true_iff in Hdig as [Hc Hdig].
  change ("_rev" +:+ String c n +:+ ?t)
    with (String "_" (String "r" (String "e" (String "v"
            (String c n +:+ t))))).
  cbn [rev_suffix]. rewrite !bool_decide_true by done. cbn [andb].
  rewrite append_cons, Hc. cbn [andb].
  rewrite <- append_cons.
  rewrite drop_digits_all; [|by cbn [all_digits]; rewrite Hc|done].
  repeat match goal with
         | H : Forall _ (_ :: _) |- _ => apply Forall_cons in H as [? H]
         end.
  cbn [date_tail]. rewrite !bool_decide_true by done.
  repeat match goal with H : is_digit _ = true |- _ => rewrite H; clear H end.
  reflexivity.
Qed.

(** Before the revision suffix of a stem no revision suffix starts. *)
Lemma rev_suffix_before q n y1 y2 y3 y4 m1 m2 d1 d2 :
  q ≠ "" →
  rev_suffix (q +:+ revision n y1 y2 y3 y4 m1 m2 d1 d2) = false.
Proof.
  intros Hq. apply not_true_iff_false. intros Hrev.
  destruct q as [|a [|b [|c [|d q]]]]; [done|..].
  1-3: unfold revision in Hrev; cbn [String.append rev_suffix] in Hrev;
    repeat (apply andb_true_iff in Hrev as [Hrev ?]);
    repeat match goal with
           | H : bool_decide _ = true |- _ => apply bool_decide_eq_true in H
           end; congruence.
  - rewrite !append_cons in Hrev. cbn [rev_suffix] in Hrev.
    apply andb_true_iff in Hrev as [_ Hdate].
    apply date_tail_length in Hdate.
    unfold revision in Hdate.
    change ("_rev" +:+ n +:+ ?t) with (String "_" ("rev" +:+ n +:+ t))
      in Hdate.
    pose proof (drop_digits_length q "_"
      ("rev" +:+ n +:+ String "_" (String y1 (String y2 (String y3
         (String y4 (String "_" (String m1 (String m2 (String "_"
            (String d1 (String d2 ""))))))))))) eq_refl) as Hlen.
    cbn [String.length] in Hlen. rewrite !length_append in Hlen.
    cbn [String.length] in Hlen. lia.
Qed.

Lemma at_end_revision q n y1 y2 y3 y4 m1 m2 d1 d2 :
  at_end (q +:+ revision n y1 y2 y3 y4 m1 m2 d1 d2) = false.
Proof.
  apply not_true_iff_false. intros H%at_end_length.
  rewrite length_append, revision_length in H. lia.
Qed.

Lemma bundle_name_unfold stem :
  bundle_name stem
  = if rev_suffix stem || at_end stem then Some EmptyString
    else match stem with
         | EmptyString => None
         | String c rest =>
             if bool_decide (c = "010"%char) then None
             else String c <$> bundle_name rest
         end.
Proof. by destruct stem. Qed.

Lemma bundle_name_prefix stem name :
  bundle_name stem = Some name →
  ∃ rest, stem = name +:+ rest
          ∧ (at_end rest = true ∨ rev_suffix rest = true).
Proof.
  revert name. induction stem as [|c stem IH]; intros name;
    rewrite bundle_name_unfold.
  - cbn. intros [= <-]. exists "". auto.
  - destruct (rev_suffix (String c stem) || at_end (String c stem)) eqn:Hhere.
    + intros [= <-]. exists (String c stem). split; [done|].
      apply orb_true_iff in Hhere. tauto.
    + case_bool_decide; [done|].
      destruct (bundle_name stem) as [name'|]; [|done].
      cbn. intros [= <-]. destruct (IH name' eq_refl) as (rest & -> & Hrest).
      by exists rest.
Qed.

Lemma bundle_name_one_line stem :
  one_line stem = true → is_Some (bundle_name stem).
Proof.
  induction stem as [|c stem IH]; rewrite bundle_name_unfold; [by eexists|].
  cbn [one_line]. intros [Hc Hrest]%andb_true_iff.
  destruct (rev_suffix _ || at_end _); [by eexists|].
  apply negb_true_iff in Hc. rewrite Hc.
  destruct (IH Hrest) as [name ->]. by eexists.
Qed.

Lemma bundle_name_revision_stripped p n y1 y2 y3 y4 m1 m2 d1 d2 :
  one_line p = true →
  revision_digits n y1 y2 y3 y4 m1 m2 d1 d2 →
  bundle_name (p +:+ revision n y1 y2 y3 y4 m1 m2 d1 d2) = Some p.
Proof.
  intros Hp Hrev. induction p as [|c p IH].
  - rewrite append_nil_l, bundle_name_unfold.
    by rewrite rev_suffix_revision.
  - rewrite bundle_name_unfold.
    rewrite rev_suffix_before, at_end_revision by done.
    rewrite append_cons. cbn [orb].
    cbn [one_line] in Hp. apply andb_true_iff in Hp as [Hc Hp].
    apply negb_true_iff in Hc. rewrite Hc. by rewrite IH.
Qed.

(** X14. The name [unzip_proxies] gives a bundle is a prefix of the stem
    of the archive, and what follows it is nothing, a final line feed or
    a revision suffix; a stem without a line feed always gets a name; and
    a stem that ends with a revision suffix [_rev<digits>_dddd_dd_dd]
    gets the text before that suffix, so two revisions of one proxy get
    the same name. *)
Theorem bundle_name_strips_revision (p n : string)
  (y1 y2 y3 y4 m1 m2 d1 d2 : ascii) :
  one_line p = true →
  revision_digits n y1 y2 y3 y4 m1 m2 d1 d2 →
  bundle_name (p +:+ revision n y1 y2 y3 y4 m1 m2 d1 d2) = Some p
  ∧ bundle_name p ≠ None
  ∧ ∀ name, bundle_name p = Some name →
            ∃ rest, p = name +:+ rest
                    ∧ (at_end rest = true ∨ rev_suffix rest = true).
Proof.
  intros Hp Hrev. split; [by apply bundle_name_revision_stripped|].
  split; [|apply bundle_name_prefix].
  destruct (bundle_name_one_line p Hp) as [name ->]. done.
Qed.

Lemma bundle_name_strips_revision_witness :
  bundle_name ("shop" +:+ revision "7" "2" "0" "2" "4" "0" "3" "1" "5")
  = Some "shop".
Proof.
  apply bundle_name_strips_revision.
  - reflexivity.
  - split; [discriminate|]. split; [reflexivity|]. repeat constructor.
Defined.
